(** * Basis algebra and B-spline model matrices (neurostatslib/basis.py)

    A shallow embedding of the [Basis] class hierarchy: the validation done by
    [gen_model_matrix], the composite bases built by [+] and [*], knot
    generation, and the B-spline and cyclic B-spline evaluators.

    Python integers are [Z], the [GB_limit] attribute is a rational (the
    ceiling [GB_limit * 10**9] is taken exactly, as it is for the default
    16.0), one-dimensional arrays are lists and two-dimensional arrays carry
    their column count, so that an array with no row still has a shape.
    Sample streams are passed as values.  float64 scalars and the numerical
    kernels that the source only calls ([nanpercentile], the values of
    [splev]) are an interface, instantiated further down with binary64 floats
    and with exact integers.  No property of float64 arithmetic is assumed
    for all numbers: what a theorem needs of the numbers of one call is among
    its hypotheses, and the comparison laws used are proved of both
    instances.

    The module [Fetch] embeds [_find_shared_directory] of
    nemos/fetch/fetch_data.py, on paths given by their anchor and names. *)

From Stdlib Require Import String ZArith Bool Lia QArith Floats Uint63 List Sorted
  Permutation.
Import ListNotations.
Local Open Scope Z_scope.

Set Implicit Arguments.

(** ** Exceptions and results *)

Inductive exn : Type :=
| ValueError_input_number_mismatch      (* _check_input_number *)
| ValueError_sample_size_mismatch       (* _check_samples_consistency *)
| MemoryError_model_matrix_size         (* _check_full_model_matrix_size *)
| ValueError_order_not_positive         (* SplineBasis.__init__ *)
| ValueError_eval_type                  (* SplineBasis.__init__ *)
| ValueError_order_larger_than_n_basis  (* _generate_knots *)
| AssertionError_perc_low
| AssertionError_perc_high
| AssertionError_perc_low_lt_high
| AssertionError_outside_knots_range    (* BSplineBasis.evaluate *)
| AssertionError_cyclic_order
| AssertionError_cyclic_n_basis_order
| AssertionError_cyclic_n_basis_twice
| IndexError
| AttributeError_knot_locs
| ValueError_negative_dimensions        (* np.ones, np.zeros, np.eye, np.linspace *)
| ValueError_shape_mismatch             (* np.vstack, broadcasting *)
| ValueError_empty_reduction            (* ndarray.max of an empty array *)
| TypeError_NoneType
| ValueError_splev_der                  (* splev: 0 <= der <= k must hold *)
| ValueError_splev_invalid_input.       (* splev: Invalid input data *)

Inductive result (A : Type) : Type :=
| Ok (a : A)
| Raise (e : exn).
Arguments Ok {A} a.
Arguments Raise {A} e.

Definition rbind {A B} (r : result A) (k : A -> result B) : result B :=
  match r with
  | Ok a => k a
  | Raise e => Raise e
  end.

Declare Scope res_scope.
Delimit Scope res_scope with res.
Notation "x <- c ;; k" := (rbind c (fun x => k))
  (at level 61, c at next level, right associativity) : res_scope.
Notation "c ;;; k" := (rbind c (fun _ => k))
  (at level 61, right associativity) : res_scope.

(** ** Python sequences *)

Definition len {A} (l : list A) : Z := Z.of_nat (length l).

(** The position that index [i] denotes in [l], negative indices counting
    from the end. *)
Definition py_pos {A} (l : list A) (i : Z) : result nat :=
  let j := if i <? 0 then i + len l else i in
  if (j <? 0) || (len l <=? j) then Raise IndexError else Ok (Z.to_nat j).

(** [l[i]] *)
Definition py_index {A} (l : list A) (i : Z) : result A :=
  rbind (py_pos l i) (fun j =>
    match nth_error l j with
    | Some a => Ok a
    | None => Raise IndexError
    end).

(** A slice bound, clipped as Python clips it. *)
Definition py_bound {A} (l : list A) (i : Z) : nat :=
  Z.to_nat (if i <? 0 then Z.max 0 (i + len l) else Z.min i (len l)).

(** [l[a:b]] *)
Definition py_slice {A} (l : list A) (a b : Z) : list A :=
  firstn (py_bound l b - py_bound l a) (skipn (py_bound l a) l).

(** [range(a, b)] *)
Definition py_range (a b : Z) : list Z :=
  map (fun k => a + Z.of_nat k) (seq 0 (Z.to_nat (b - a))).

(** [a[mask]] for a boolean mask of the length of [a]. *)
Fixpoint select {A} (mask : list bool) (a : list A) : list A :=
  match mask, a with
  | m :: mask', x :: a' => if m then x :: select mask' a' else select mask' a'
  | _, _ => []
  end.

(** [a[mask] = vals], for [vals] with one value per masked position: the
    masked positions take the values in order, the others keep theirs. *)
Fixpoint scatter {A} (mask : list bool) (vals : list A) (a : list A) : list A :=
  match mask, a with
  | m :: mask', x :: a' =>
      if m then
        match vals with
        | v :: vals' => v :: scatter mask' vals' a'
        | [] => x :: scatter mask' [] a'
        end
      else x :: scatter mask' vals a'
  | _, _ => a
  end.

(** [l[i] = v] on a list of rows. *)
Fixpoint set_nth {A} (i : nat) (v : A) (l : list A) : list A :=
  match l, i with
  | [], _ => []
  | _ :: l', O => v :: l'
  | x :: l', S i' => x :: set_nth i' v l'
  end.

(** [np.sum(mask)] *)
Definition count_true (mask : list bool) : Z :=
  len (filter (fun b => b) mask).

(** ** float64 scalars and the numerical routines the source calls *)

Class Float64 : Type := {
  F : Type;
  fofZ : Z -> F;                    (* an int used where a float is expected *)
  fadd : F -> F -> F;
  fsub : F -> F -> F;
  fmul : F -> F -> F;
  fdiv : F -> F -> F;
  flt : F -> F -> bool;             (* x < y *)
  fle : F -> F -> bool;             (* x <= y *)
  feq : F -> F -> bool;             (* x == y *)
  (* np.nanpercentile(a, q) *)
  nanpercentile : list F -> F -> F;
  (* the values that FITPACK computes for splev(x, (t, c, k), der), on points
     and a derivative order that it accepts *)
  splev_values : list F -> list F -> list Z -> Z -> Z -> list F
}.

Section Model.
Context {FL : Float64}.

Definition isnan (x : F) : bool := negb (feq x x).
Definition fgt (x y : F) : bool := flt y x.
Definition fge (x y : F) : bool := fle y x.

(** [np.clip(a, lo, hi)] on a scalar. *)
Definition np_clip (a lo hi : F) : F :=
  if isnan a then a else if flt a lo then lo else if flt hi a then hi else a.

(** [np.ones(n)] *)
Definition np_ones (n : Z) : result (list F) :=
  if n <? 0 then Raise ValueError_negative_dimensions
  else Ok (repeat (fofZ 1) (Z.to_nat n)).

(** [s * a] and [a * s] for a scalar [s] and an array [a]. *)
Definition scale (s : F) (a : list F) : list F := map (fun v => fmul s v) a.
Definition scale_r (a : list F) (s : F) : list F := map (fun v => fmul v s) a.

(** The points of [np.linspace(start, stop, num)]: [start + i * step], the
    last one set to [stop]. *)
Definition linspace (start stop : F) (num : Z) : list F :=
  let div := fofZ (num - 1) in
  let delta := fsub stop start in
  let step := fdiv delta div in
  let point (i : Z) :=
    if feq step (fofZ 0)
    then fadd (fmul (fdiv (fofZ i) div) delta) start
    else fadd (fmul (fofZ i) step) start in
  if 1 <? num
  then map point (py_range 0 (num - 1)) ++ [stop]
  else map point (py_range 0 num).

(** [np.linspace(start, stop, num)] *)
Definition np_linspace (start stop : F) (num : Z) : result (list F) :=
  if num <? 0 then Raise ValueError_negative_dimensions
  else Ok (linspace start stop num).

(** The order of [ndarray.sort]: ascending, NaN last. *)
Definition np_lt (x y : F) : bool := flt x y || (isnan y && negb (isnan x)).

Fixpoint sort_insert (x : F) (l : list F) : list F :=
  match l with
  | [] => [x]
  | y :: l' => if np_lt y x then y :: sort_insert x l' else x :: l
  end.

(** [a.sort()] / [np.sort(a)] *)
Definition np_sort (a : list F) : list F := fold_right sort_insert [] a.

Fixpoint dedup (x : F) (l : list F) : list F :=
  match l with
  | [] => [x]
  | y :: l' =>
      if feq x y || (isnan x && isnan y) then dedup x l' else x :: dedup y l'
  end.

(** [np.unique(a)]: the sorted distinct values. *)
Definition np_unique (a : list F) : list F :=
  match np_sort a with
  | [] => []
  | x :: l => dedup x l
  end.

(** [a.max()], NaN propagating. *)
Definition np_max (a : list F) : result F :=
  match a with
  | [] => Raise ValueError_empty_reduction
  | x :: a' =>
      Ok (fold_left (fun m y => if isnan m then m else if isnan y then y
                                else if flt m y then y else m) a' x)
  end.

(** ** Two-dimensional arrays *)

Record matrix : Type := { ncols : nat; rows : list (list F) }.

Definition shape (m : matrix) : nat * nat := (length (rows m), ncols m).

(** Every row has [ncols] entries. *)
Definition rectangular (m : matrix) : Prop :=
  Forall (fun r => length r = ncols m) (rows m).

(** [np.zeros((r, c))] *)
Definition np_zeros (r : Z) (c : nat) : result matrix :=
  if r <? 0 then Raise ValueError_negative_dimensions
  else Ok {| ncols := c; rows := repeat (repeat (fofZ 0) c) (Z.to_nat r) |}.

(** Row [i] of an identity matrix with [m] columns. *)
Definition eye_row (m i : Z) : list Z :=
  map (fun j => if j =? i then 1 else 0) (py_range 0 m).

(** [np.eye(n, m, dtype=np.int8)] *)
Definition np_eye (n m : Z) : result (list (list Z)) :=
  if (n <? 0) || (m <? 0) then Raise ValueError_negative_dimensions
  else Ok (map (eye_row m) (py_range 0 n)).

(** [b[r, mask] = vals] *)
Definition set_masked_row (b : matrix) (r : Z) (mask : list bool) (vals : list F)
  : result matrix :=
  (j <- py_pos (rows b) r ;;
   row <- py_index (rows b) r ;;
   Ok {| ncols := ncols b; rows := set_nth j (scatter mask vals row) (rows b) |})%res.

(** [np.vstack((a, b))] *)
Definition np_vstack (a b : matrix) : result matrix :=
  if Nat.eqb (ncols a) (ncols b)
  then Ok {| ncols := ncols a; rows := rows a ++ rows b |}
  else Raise ValueError_shape_mismatch.

Fixpoint map2 {A B C} (f : A -> B -> C) (l : list A) (l' : list B) : list C :=
  match l, l' with
  | x :: l, y :: l' => f x y :: map2 f l l'
  | _, _ => []
  end.

(** Modelled from the spec: [utils.rowWiseKron(a, b, transpose=True)], which is
    imported by basis.py and not part of the sources.  For [a] of shape [L, N]
    and [b] of shape [R, N] the result has shape [L*R, N] and its row
    [i*R + j] at sample [n] is [a[i, n] * b[j, n]]. *)
Definition rowWiseKron (a b : matrix) : result matrix :=
  if Nat.eqb (ncols a) (ncols b)
  then Ok {| ncols := ncols a;
             rows := flat_map (fun ra => map (fun rb => map2 fmul ra rb) (rows b))
                              (rows a) |}
  else Raise ValueError_shape_mismatch.

(** ** The spline leaves *)

Inductive spline_class : Type := BSpline | Cyclic_BSpline.

(** Which routine [__init__] installed as [_gen_model_matrix]. *)
Inductive eval_mode : Type := mode_evaluate | mode_convolve.

(** The attributes of a spline object; [knot_locs] is [None] while the
    attribute is unset. *)
Record Spline : Type := {
  s_class : spline_class;
  s_n_basis_funcs : Z;
  s_GB_limit : Q;
  order : Z;
  s_n_input_samples : nat;
  s_mode : eval_mode;
  knot_locs : option (list F)
}.

(** Methods that read or write [self.knot_locs] pass the attribute along; an
    exception leaves it as it was when raised. *)
Definition M (A : Type) : Type := option (list F) -> result A * option (list F).

Definition ret {A} (a : A) : M A := fun s => (Ok a, s).
Definition raise {A} (e : exn) : M A := fun s => (Raise e, s).
Definition lift {A} (r : result A) : M A := fun s => (r, s).
Definition bind {A B} (m : M A) (k : A -> M B) : M B :=
  fun s => match m s with
           | (Ok a, s') => k a s'
           | (Raise e, s') => (Raise e, s')
           end.

Definition get_knot_locs : M (list F) :=
  fun s => match s with
           | Some k => (Ok k, s)
           | None => (Raise AttributeError_knot_locs, s)
           end.
Definition set_knot_locs (k : list F) : M unit := fun _ => (Ok tt, Some k).
Definition del_knot_locs : M unit :=
  fun s => match s with
           | Some _ => (Ok tt, None)
           | None => (Raise AttributeError_knot_locs, s)
           end.

Declare Scope obj_scope.
Delimit Scope obj_scope with obj.
Notation "x <- c ;; k" := (bind c (fun x => k))
  (at level 61, c at next level, right associativity) : obj_scope.
Notation "c ;;; k" := (bind c (fun _ => k))
  (at level 61, right associativity) : obj_scope.

(** The percentile handed to [np.nanpercentile]. *)
Definition percent (p : F) : F := np_clip (fmul p (fofZ 100)) (fofZ 0) (fofZ 100).

(** [SplineBasis._generate_knots] *)
Definition _generate_knots (self : Spline) (sample_pts : list F)
    (perc_low perc_high : F) (is_cyclic : bool) : M (list F) :=
  (let num_interior_knots := s_n_basis_funcs self - order self in
   let num_interior_knots :=
     if is_cyclic then num_interior_knots + (order self - 1) else num_interior_knots in
   if num_interior_knots <? 0 then raise ValueError_order_larger_than_n_basis
   else if negb (fle (fofZ 0) perc_low && fle perc_low (fofZ 1))
   then raise AssertionError_perc_low
   else if negb (fle (fofZ 0) perc_high && fle perc_high (fofZ 1))
   then raise AssertionError_perc_high
   else if negb (flt perc_low perc_high) then raise AssertionError_perc_low_lt_high
   else
     let mn := nanpercentile sample_pts (percent perc_low) in
     let mx := nanpercentile sample_pts (percent perc_high) in
     lo <- lift (np_ones (order self - 1)) ;;
     mid <- lift (np_linspace mn mx (num_interior_knots + 2)) ;;
     hi <- lift (np_ones (order self - 1)) ;;
     let knots := scale mn lo ++ mid ++ scale mx hi in
     set_knot_locs knots ;;;
     ret knots)%obj.

(** The pieces of [_generate_knots], named: the number of interior knots, the
    three assertions on the percentiles, and the knot vector. *)
Definition num_interior (self : Spline) (is_cyclic : bool) : Z :=
  if is_cyclic then s_n_basis_funcs self - order self + (order self - 1)
  else s_n_basis_funcs self - order self.

Definition percentiles_ok (perc_low perc_high : F) : bool :=
  (fle (fofZ 0) perc_low && fle perc_low (fofZ 1)) &&
  (fle (fofZ 0) perc_high && fle perc_high (fofZ 1)) &&
  flt perc_low perc_high.

Definition knot_vector (self : Spline) (sample_pts : list F)
    (perc_low perc_high : F) (is_cyclic : bool) : list F :=
  let mn := nanpercentile sample_pts (percent perc_low) in
  let mx := nanpercentile sample_pts (percent perc_high) in
  scale mn (repeat (fofZ 1) (Z.to_nat (order self - 1)))
  ++ linspace mn mx (num_interior self is_cyclic + 2)
  ++ scale mx (repeat (fofZ 1) (Z.to_nat (order self - 1))).

(** [Basis.evaluate] and [Basis.convolve]: both bodies are a bare [return]. *)
Definition Basis_evaluate (samples : list F) (check_support : bool) : unit := tt.
Definition Basis_convolve (samples : list F) : unit := tt.

(** [scipy.interpolate.splev(x, (t, c, k), der=der)] on a one-dimensional
    array [x] and one coefficient vector: the wrapper refuses a derivative
    order outside [0, k], FITPACK refuses an empty array of points. *)
Definition splev (x t : list F) (c : list Z) (k der : Z) : result (list F) :=
  if negb ((0 <=? der) && (der <=? k)) then Raise ValueError_splev_der
  else
    match x with
    | [] => Raise ValueError_splev_invalid_input
    | _ :: _ => Ok (splev_values x t c k der)
    end.

(** The loop of [BSplineBasis.evaluate] over the basis elements. *)
Definition evaluate_loop (self : Spline) (knots : list F) (reps der : Z)
    (sample_pts : list F) (in_sample : list bool) (id_basis : list (list Z))
    (basis_eval : matrix) : result matrix :=
  fold_left
    (fun acc i =>
       (b <- acc ;;
        c <- py_index id_basis i ;;
        vals <- splev (select in_sample sample_pts) knots c (order self - 1) der ;;
        set_masked_row b (i - reps) in_sample vals)%res)
    (py_range reps (len knots - order self - reps))
    (Ok basis_eval).

(** What the loop leaves in the row of basis element [i]: the values of that
    element at the samples in range, zero elsewhere. *)
Definition basis_row (self : Spline) (knots : list F) (der : Z)
    (sample_pts : list F) (in_sample : list bool) (i : Z) : list F :=
  scatter in_sample
    (splev_values (select in_sample sample_pts) knots (eye_row (len knots) i)
                  (order self - 1) der)
    (repeat (fofZ 0) (length sample_pts)).

(** [need_outer] in [BSplineBasis.evaluate]: is some sample below
    [knots[order - 1]] or above [knots[nk - order]]? *)
Definition need_outer (self : Spline) (knots sample_pts : list F) : result bool :=
  (k_low <- py_index knots (order self - 1) ;;
   if existsb (fun x => flt x k_low) sample_pts then Ok true
   else k_high <- py_index knots (len knots - order self) ;;
        Ok (existsb (fun x => fgt x k_high) sample_pts))%res.

(** [in_sample] in [BSplineBasis.evaluate] *)
Definition in_sample (k_first k_last : F) (sample_pts : list F) : list bool :=
  map (fun x => fge x k_first && fle x k_last) sample_pts.

(** The knots that the loop runs on, with the number of repeats added on
    each side. *)
Definition outer_knots (self : Spline) (need : bool) (knots : list F)
    (k_first k_last : F) : result (list F * Z) :=
  if need
  then (let reps := order self - 1 in
        lo <- np_ones reps ;;
        hi <- np_ones reps ;;
        Ok (scale_r lo k_first ++ knots ++ scale_r hi k_last, reps))%res
  else Ok (knots, 0).

(** [BSplineBasis.evaluate] from the sorted knots on: the range check, the
    extension of the knots and the loop. *)
Definition evaluate_on_knots (self : Spline) (knots sample_pts : list F)
    (outer_ok : bool) (der : Z) : result matrix :=
  (need <- need_outer self knots sample_pts ;;
   if negb (negb need || outer_ok) then Raise AssertionError_outside_knots_range
   else
     k_first <- py_index knots 0 ;;
     k_last <- py_index knots (-1) ;;
     let in_sample := in_sample k_first k_last sample_pts in
     ext <- outer_knots self need knots k_first k_last ;;
     let knots := fst ext in
     let reps := snd ext in
     let nk := len knots in
     let n_basis := nk - order self in
     basis_eval <- np_zeros (n_basis - 2 * reps) (length sample_pts) ;;
     id_basis <- np_eye n_basis nk ;;
     evaluate_loop self knots reps der sample_pts in_sample id_basis basis_eval)%res.

(** [BSplineBasis.evaluate] *)
Definition BSplineBasis_evaluate (self : Spline) (sample_pts : list F)
    (outer_ok : bool) (der : Z) : M matrix :=
  (let _ := Basis_evaluate sample_pts false in
   _generate_knots self sample_pts (fofZ 0) (fofZ 1) false ;;;
   knots <- get_knot_locs ;;
   let knots := np_sort knots in
   set_knot_locs knots ;;;
   basis_eval <- lift (evaluate_on_knots self knots sample_pts outer_ok der) ;;
   del_knot_locs ;;;
   ret basis_eval)%obj.

(** [b[:, ind] = b[:, ind] + x2] *)
Definition add_masked_columns (b : matrix) (ind : list bool) (x2 : matrix)
  : result matrix :=
  if Nat.eqb (length (rows b)) (length (rows x2))
  then Ok {| ncols := ncols b;
             rows := map2 (fun r r2 => scatter ind (map2 fadd (select ind r) r2) r)
                          (rows b) (rows x2) |}
  else Raise ValueError_shape_mismatch.

(** [a[ind] = f(a[ind])], elementwise. *)
Definition update_masked (ind : list bool) (f : F -> F) (a : list F) : list F :=
  scatter ind (map f (select ind a)) a.

(** [Cyclic_BSplineBasis.evaluate].  [sample_pts] is the caller's array and is
    written to in place: the second component of the result is its content
    when the call returns. *)
Definition Cyclic_BSplineBasis_evaluate (self : Spline) (sample_pts : list F)
    (der : Z) : M (matrix * list F) :=
  (_generate_knots self sample_pts (fofZ 0) (fofZ 1) true ;;;
   kl <- get_knot_locs ;;
   set_knot_locs (np_unique kl) ;;;
   kl <- get_knot_locs ;;
   let knots_orig := kl in
   let nk := len knots_orig in
   let knots_orig := np_sort knots_orig in
   xc <- lift (py_index knots_orig (nk - 2 * order self + 1)) ;;
   kl_first <- lift (py_index kl 0) ;;
   kl_last <- lift (py_index kl (-1)) ;;
   let knots :=
     map (fun v => fadd (fsub kl_first kl_last) v)
         (py_slice kl (nk - order self) (nk - 1)) ++ kl in
   let ind := map (fun x => fgt x xc) sample_pts in
   set_knot_locs knots ;;;
   basis_eval <- BSplineBasis_evaluate self sample_pts true der ;;
   knots_max <- lift (np_max knots) ;;
   orig_first <- lift (py_index knots_orig 0) ;;
   let sample_pts :=
     update_masked ind (fun x => fadd (fsub x knots_max) orig_first) sample_pts in
   basis_eval <-
     (if negb (count_true ind =? 0)
      then X2 <- BSplineBasis_evaluate self (select ind sample_pts) true der ;;
           lift (add_masked_columns basis_eval ind X2)
      else ret basis_eval) ;;
   let sample_pts :=
     update_masked ind (fun x => fsub (fadd x knots_max) orig_first) sample_pts in
   ret (basis_eval, sample_pts))%obj.

(** ** The basis objects *)

(** A basis is a spline leaf or a composite; a composite stores the counts and
    the ceiling that its [__init__] computed, next to its two operands. *)
Inductive Basis : Type :=
| Leaf (s : Spline)
| Add (n_basis_funcs : Z) (GB_limit : Q) (n_input_samples : nat)
      (basis1 basis2 : Basis)
| Mul (n_basis_funcs : Z) (GB_limit : Q) (n_input_samples : nat)
      (basis1 basis2 : Basis).

Definition n_basis_funcs (b : Basis) : Z :=
  match b with
  | Leaf s => s_n_basis_funcs s
  | Add n _ _ _ _ | Mul n _ _ _ _ => n
  end.

Definition GB_limit (b : Basis) : Q :=
  match b with
  | Leaf s => s_GB_limit s
  | Add _ g _ _ _ | Mul _ g _ _ _ => g
  end.

Definition n_input_samples (b : Basis) : nat :=
  match b with
  | Leaf s => s_n_input_samples s
  | Add _ _ k _ _ | Mul _ _ k _ _ => k
  end.

(** [SplineBasis.__init__], through [Basis.__init__] with the default
    [GB_limit]. *)
Definition SplineBasis_init (cls : spline_class) (n_basis_funcs : Z) (order : Z)
    (eval_type : string) : result Spline :=
  if order <? 1 then Raise ValueError_order_not_positive
  else
    let self mode :=
      {| s_class := cls; s_n_basis_funcs := n_basis_funcs; s_GB_limit := 16%Q;
         order := order; s_n_input_samples := 1; s_mode := mode;
         knot_locs := None |} in
    if String.eqb eval_type "evaluate" then Ok (self mode_evaluate)
    else if String.eqb eval_type "convolve" then Ok (self mode_convolve)
    else Raise ValueError_eval_type.

(** [BSplineBasis(n_basis_funcs, order, eval_type)] *)
Definition BSplineBasis (n_basis_funcs order : Z) (eval_type : string)
  : result Basis :=
  (self <- SplineBasis_init BSpline n_basis_funcs order eval_type ;;
   Ok (Leaf self))%res.

(** [Cyclic_BSplineBasis(n_basis_funcs, order, eval_type)] *)
Definition Cyclic_BSplineBasis (n_basis_funcs order : Z) (eval_type : string)
  : result Basis :=
  (self <- SplineBasis_init Cyclic_BSpline n_basis_funcs order eval_type ;;
   if negb (2 <=? order) then Raise AssertionError_cyclic_order
   else if negb (order + 2 <=? n_basis_funcs)
   then Raise AssertionError_cyclic_n_basis_order
   else if negb (2 * order - 2 <=? n_basis_funcs)
   then Raise AssertionError_cyclic_n_basis_twice
   else Ok (Leaf self))%res.

(** [addBasis(basis1, basis2)], the value of [basis1 + basis2]. *)
Definition addBasis (basis1 basis2 : Basis) : Basis :=
  Add (n_basis_funcs basis1 + n_basis_funcs basis2) (GB_limit basis1)
      (n_input_samples basis1 + n_input_samples basis2) basis1 basis2.

(** [mulBasis(basis1, basis2)], the value of [basis1 * basis2]. *)
Definition mulBasis (basis1 basis2 : Basis) : Basis :=
  Mul (n_basis_funcs basis1 * n_basis_funcs basis2) (GB_limit basis1)
      (n_input_samples basis1 + n_input_samples basis2) basis1 basis2.

(** What a generation routine returns: a float array, [None] from the
    [convolve] stub, or the array of objects that [np.vstack] makes when an
    operand is [None] or such an array. *)
Inductive cell : Type :=
| cell_None
| cell_float (v : F).

Inductive pyobj : Type :=
| PyNone
| PyArray (m : matrix)
| PyObjects (ocols : nat) (orows : list (list cell)).

(** [np.atleast_2d] of an operand of [np.vstack], as columns and rows of
    objects: [None] becomes a 1 x 1 array. *)
Definition atleast_2d (v : pyobj) : nat * list (list cell) :=
  match v with
  | PyNone => (1%nat, [[cell_None]])
  | PyArray m => (ncols m, map (map cell_float) (rows m))
  | PyObjects c r => (c, r)
  end.

(** [np.vstack((a, b))] on what two operands returned. *)
Definition vstack_results (a b : pyobj) : result pyobj :=
  match a, b with
  | PyArray a, PyArray b => (m <- np_vstack a b ;; Ok (PyArray m))%res
  | _, _ =>
      let a2 := atleast_2d a in
      let b2 := atleast_2d b in
      if Nat.eqb (fst a2) (fst b2)
      then Ok (PyObjects (fst a2) (snd a2 ++ snd b2))
      else Raise ValueError_shape_mismatch
  end.

(** An operand of [rowWiseKron].  The function is not in the sources and the
    spec describes it on float arrays; an operand that is [None] or holds
    [None] is taken to make it raise [TypeError]. *)
Definition as_array (v : pyobj) : result matrix :=
  match v with
  | PyArray m => Ok m
  | PyNone | PyObjects _ _ => Raise TypeError_NoneType
  end.

(** The routine installed by [BSplineBasis.__init__]:
    [lambda x_list: self.evaluate(x_list[0])], or the same with [convolve]. *)
Definition Spline_gen_model_matrix (self : Spline) (x_list : list (list F))
  : result pyobj :=
  (x0 <- py_index x_list 0 ;;
   match s_mode self with
   | mode_convolve => let _ := Basis_convolve x0 in Ok PyNone
   | mode_evaluate =>
       match s_class self with
       | BSpline =>
           m <- fst (BSplineBasis_evaluate self x0 false 0 (knot_locs self)) ;;
           Ok (PyArray m)
       | Cyclic_BSpline =>
           r <- fst (Cyclic_BSplineBasis_evaluate self x0 0 (knot_locs self)) ;;
           Ok (PyArray (fst r))
       end
   end)%res.

(** [_gen_model_matrix], by the class of [self]. *)
Fixpoint _gen_model_matrix (self : Basis) (x_list : list (list F)) : result pyobj :=
  match self with
  | Leaf s => Spline_gen_model_matrix s x_list
  | Add _ _ _ basis1 basis2 =>
      (a <- _gen_model_matrix basis1 (firstn (n_input_samples basis1) x_list) ;;
       b <- _gen_model_matrix basis2 (skipn (n_input_samples basis1) x_list) ;;
       vstack_results a b)%res
  | Mul _ _ _ basis1 basis2 =>
      (a <- _gen_model_matrix basis1 (firstn (n_input_samples basis1) x_list) ;;
       b <- _gen_model_matrix basis2 (skipn (n_input_samples basis1) x_list) ;;
       a <- as_array a ;;
       b <- as_array b ;;
       m <- rowWiseKron a b ;;
       Ok (PyArray m))%res
  end.

(** [Basis._check_input_number] *)
Definition _check_input_number (self : Basis) (x : list (list F)) : result unit :=
  if negb (Nat.eqb (length x) (n_input_samples self))
  then Raise ValueError_input_number_mismatch
  else Ok tt.

(** [Basis._check_samples_consistency] *)
Definition _check_samples_consistency (x : list (list F)) : result unit :=
  let sample_sizes := map (fun samp => len samp) x in
  match sample_sizes with
  | [] => Ok tt
  | size0 :: _ =>
      if existsb (fun elem => negb (elem =? size0)) sample_sizes
      then Raise ValueError_sample_size_mismatch
      else Ok tt
  end.

(** [Basis._check_full_model_matrix_size], with [dtype=np.float64]. *)
Definition itemsize_float64 : Z := 8.

Definition _check_full_model_matrix_size (self : Basis) (n_samples : Z)
  : result unit :=
  let size_in_bytes := itemsize_float64 * n_samples * n_basis_funcs self in
  if negb (Qle_bool (inject_Z size_in_bytes) (GB_limit self * inject_Z (10 ^ 9)))
  then Raise MemoryError_model_matrix_size
  else Ok tt.

(** The method calls that [gen_model_matrix] makes, in the order made. *)
Inductive call : Type :=
| call_check_samples_consistency
| call_check_full_model_matrix_size
| call_check_input_number
| call_gen_model_matrix.

Definition all_calls : list call :=
  [call_check_samples_consistency; call_check_full_model_matrix_size;
   call_check_input_number; call_gen_model_matrix].

(** [Basis.gen_model_matrix], called on the streams [x], with the calls it made. *)
Definition gen_model_matrix_trace (self : Basis) (x : list (list F))
  : list call * result pyobj :=
  match _check_samples_consistency x with
  | Raise e => ([call_check_samples_consistency], Raise e)
  | Ok _ =>
      match py_index x 0 with
      | Raise e => ([call_check_samples_consistency], Raise e)
      | Ok x0 =>
          match _check_full_model_matrix_size self (len x0) with
          | Raise e =>
              ([call_check_samples_consistency; call_check_full_model_matrix_size],
               Raise e)
          | Ok _ =>
              match _check_input_number self x with
              | Raise e =>
                  ([call_check_samples_consistency; call_check_full_model_matrix_size;
                    call_check_input_number], Raise e)
              | Ok _ =>
                  ([call_check_samples_consistency; call_check_full_model_matrix_size;
                    call_check_input_number; call_gen_model_matrix],
                   _gen_model_matrix self x)
              end
          end
      end
  end.

Definition gen_model_matrix (self : Basis) (x : list (list F)) : result pyobj :=
  snd (gen_model_matrix_trace self x).

(** ** Notions used to state the properties *)

(** The counts stored in every composite are those its [__init__] computes
    from the operands. *)
Fixpoint consistent (b : Basis) : Prop :=
  match b with
  | Leaf _ => True
  | Add n _ _ basis1 basis2 =>
      n = n_basis_funcs basis1 + n_basis_funcs basis2 /\
      consistent basis1 /\ consistent basis2
  | Mul n _ _ basis1 basis2 =>
      n = n_basis_funcs basis1 * n_basis_funcs basis2 /\
      consistent basis1 /\ consistent basis2
  end.

(** Every stream has [N] samples. *)
Definition same_length (N : nat) (x : list (list F)) : Prop :=
  Forall (fun samp => length samp = N) x.

(** [sizeof(float64) * N * n_basis_funcs] does not exceed [GB_limit * 10**9]. *)
Definition within_limit (b : Basis) (N : nat) : Prop :=
  (inject_Z (8 * Z.of_nat N * n_basis_funcs b) <= GB_limit b * inject_Z (10 ^ 9))%Q.


(** [b.GB_limit = g] *)
Definition set_GB_limit (g : Q) (b : Basis) : Basis :=
  match b with
  | Leaf s =>
      Leaf {| s_class := s_class s; s_n_basis_funcs := s_n_basis_funcs s;
              s_GB_limit := g; order := order s;
              s_n_input_samples := s_n_input_samples s; s_mode := s_mode s;
              knot_locs := knot_locs s |}
  | Add n _ k basis1 basis2 => Add n g k basis1 basis2
  | Mul n _ k basis1 basis2 => Mul n g k basis1 basis2
  end.

(** The three errors that the checks of [gen_model_matrix] raise. *)
Definition validation_error (e : exn) : bool :=
  match e with
  | ValueError_input_number_mismatch
  | ValueError_sample_size_mismatch
  | MemoryError_model_matrix_size => true
  | _ => false
  end.

(** [sizeof(float64) * N * n_basis_funcs] exceeds [GB_limit * 10**9]. *)
Definition exceeds_limit (b : Basis) (N : nat) : Prop :=
  (GB_limit b * inject_Z (10 ^ 9) < inject_Z (8 * Z.of_nat N * n_basis_funcs b))%Q.

(** A result that is not a validation error. *)
Definition past_validation {A} (r : result A) : Prop :=
  match r with
  | Ok _ => True
  | Raise e => validation_error e = false
  end.

(** The number of spline leaves of a basis. *)
Fixpoint n_leaves (b : Basis) : nat :=
  match b with
  | Leaf _ => 1
  | Add _ _ _ basis1 basis2 | Mul _ _ _ basis1 basis2 =>
      n_leaves basis1 + n_leaves basis2
  end.

(** The bases that the two constructors and the operators [+] and [*] give. *)
Inductive constructed : Basis -> Prop :=
| constructed_BSplineBasis n order eval_type b :
    BSplineBasis n order eval_type = Ok b -> constructed b
| constructed_Cyclic_BSplineBasis n order eval_type b :
    Cyclic_BSplineBasis n order eval_type = Ok b -> constructed b
| constructed_add basis1 basis2 :
    constructed basis1 -> constructed basis2 -> constructed (addBasis basis1 basis2)
| constructed_mul basis1 basis2 :
    constructed basis1 -> constructed basis2 -> constructed (mulBasis basis1 basis2).

(** The sums of B-spline bases in 'evaluate' mode whose order is at most
    their [n_basis_funcs]. *)
Inductive evaluable : Basis -> Prop :=
| evaluable_BSplineBasis n order b :
    BSplineBasis n order "evaluate" = Ok b -> order <= n -> evaluable b
| evaluable_add basis1 basis2 :
    evaluable basis1 -> evaluable basis2 -> evaluable (addBasis basis1 basis2).

(** What [BSplineBasis.evaluate] needs of the samples to return: the
    percentile bounds 0.0 and 1.0 pass the assertions of [_generate_knots], no
    sample is below [knots[order - 1]] or above [knots[nk - order]] of the
    sorted knots generated from the samples, and one sample at least is
    within [knots[0], knots[-1]], so that [splev] is given points. *)
Definition in_support (self : Spline) (sample_pts : list F) : bool :=
  let knots := np_sort (knot_vector self sample_pts (fofZ 0) (fofZ 1) false) in
  percentiles_ok (fofZ 0) (fofZ 1) &&
  match need_outer self knots sample_pts, py_index knots 0, py_index knots (-1) with
  | Ok false, Ok k_first, Ok k_last =>
      existsb (fun inside => inside) (in_sample k_first k_last sample_pts)
  | _, _, _ => false
  end.

(** [in_support] for every spline of a basis, on the stream it is given. *)
Fixpoint streams_in_support (b : Basis) (x_list : list (list F)) : bool :=
  match b with
  | Leaf s =>
      match x_list with
      | x0 :: _ => in_support s x0
      | [] => false
      end
  | Add _ _ _ basis1 basis2 | Mul _ _ _ basis1 basis2 =>
      streams_in_support basis1 (firstn (n_input_samples basis1) x_list) &&
      streams_in_support basis2 (skipn (n_input_samples basis1) x_list)
  end.

(** Any two values of [l] compare equal with [==]. *)
Definition all_equal (l : list F) : bool :=
  forallb (fun a => forallb (fun c => feq a c) l) l.

End Model.

Arguments Spline FL : clear implicits.
Arguments Basis FL : clear implicits.
Arguments matrix FL : clear implicits.

(** ** binary64 floats *)

Module Binary64.

Definition of_Z (z : Z) : float :=
  if z <? 0 then PrimFloat.opp (PrimFloat.of_uint63 (Uint63.of_Z (- z)))
  else PrimFloat.of_uint63 (Uint63.of_Z z).

Definition is_nan (x : float) : bool := negb (PrimFloat.eqb x x).

Definition nanmin (a : list float) : float :=
  fold_left (fun m x => if is_nan x then m else if is_nan m then x
                        else if PrimFloat.ltb x m then x else m) a nan.

Definition nanmax (a : list float) : float :=
  fold_left (fun m x => if is_nan x then m else if is_nan m then x
                        else if PrimFloat.ltb m x then x else m) a nan.

(** basis.py asks for the 0th and the 100th percentile only: the smallest and
    the largest sample that is not NaN.  Other percentiles are left out. *)
Definition percentile (a : list float) (q : float) : float :=
  if PrimFloat.eqb q 0 then nanmin a
  else if PrimFloat.eqb q 100 then nanmax a
  else nan.

(** float64 arithmetic, for any spline evaluator [sp]. *)
Definition float64 (sp : list float -> list float -> list Z -> Z -> Z -> list float)
  : Float64 :=
  {| F := float; fofZ := of_Z;
     fadd := PrimFloat.add; fsub := PrimFloat.sub;
     fmul := PrimFloat.mul; fdiv := PrimFloat.div;
     flt := PrimFloat.ltb; fle := PrimFloat.leb; feq := PrimFloat.eqb;
     nanpercentile := percentile; splev_values := sp |}.

(** [Cyclic_BSplineBasis(n_basis_funcs=4, order=2)] *)
Definition cyclic_4_2 sp : Spline (float64 sp) :=
  {| s_class := Cyclic_BSpline; s_n_basis_funcs := 4; s_GB_limit := 16%Q;
     order := 2; s_n_input_samples := 1; s_mode := mode_evaluate;
     knot_locs := None |}.

(** A piecewise constant spline with knots [t] and coefficients [c], which
    stands for the values of [splev] in concrete runs; no property below
    depends on the values. *)
Definition step_spline (x t : list float) (c : list Z) (k der : Z) : list float :=
  map (fun v =>
         fold_left PrimFloat.add
           (map2 (fun ci ab =>
                    if PrimFloat.leb (fst ab) v && PrimFloat.ltb v (snd ab)
                    then of_Z ci else 0%float)
                 c (combine t (tl t)))
           0%float) x.

(** float64 with that spline, for concrete runs. *)
Definition binary64 : Float64 := float64 step_spline.

(** [BSplineBasis(n_basis, order)] as constructed. *)
Definition bspline (n_basis order : Z) : Spline binary64 :=
  {| s_class := BSpline; s_n_basis_funcs := n_basis; s_GB_limit := 16%Q;
     order := order; s_n_input_samples := 1; s_mode := mode_evaluate;
     knot_locs := None |}.

(** The largest power of two among the doubles. *)
Definition d2p1023 : float := 0x1p+1023%float.

(** The doubles nearest to 0.1 and 0.3, the double 0.25, the double before
    0.25 and the double after the one nearest to 0.3. *)
Definition d0_1 : float := 0x1.999999999999ap-4%float.
Definition d0_25 : float := 0x1p-2%float.
Definition d0_3 : float := 0x1.3333333333333p-2%float.
Definition d0_25_prev : float := 0x1.fffffffffffffp-3%float.
Definition d0_3_next : float := 0x1.3333333333334p-2%float.

End Binary64.

(** ** Exact integer samples *)

Module Exact.

Definition percentile (a : list Z) (q : Z) : Z :=
  match a with
  | [] => 0
  | x :: a' => if q <=? 0 then fold_left Z.min a' x else fold_left Z.max a' x
  end.

(** The piecewise constant spline with knots [t] and coefficients [c]. *)
Definition step_spline (x t : list Z) (c : list Z) (k der : Z) : list Z :=
  map (fun v =>
         fold_left Z.add
           (map2 (fun ci ab => if (fst ab <=? v) && (v <? snd ab) then ci else 0)
                 c (combine t (tl t)))
           0) x.

Definition integers : Float64 :=
  {| F := Z; fofZ := fun z => z;
     fadd := Z.add; fsub := Z.sub; fmul := Z.mul; fdiv := Z.div;
     flt := Z.ltb; fle := Z.leb; feq := Z.eqb;
     nanpercentile := percentile; splev_values := step_spline |}.

(** [BSplineBasis(n_basis, order)] as constructed; two bases, two streams of
    three samples, and the matrices of the two bases on one stream each. *)
Definition spline (n_basis order : Z) : Spline integers :=
  {| s_class := BSpline; s_n_basis_funcs := n_basis; s_GB_limit := 16%Q;
     order := order; s_n_input_samples := 1; s_mode := mode_evaluate;
     knot_locs := None |}.

Definition left_basis : Basis integers := Leaf (spline 3 2).
Definition right_basis : Basis integers := Leaf (spline 2 1).

End Exact.

(** ** Paths and the directory shared by fetched files
    (nemos/fetch/fetch_data.py) *)

Module Fetch.

(** A [pathlib] path: its anchor (drive and root; empty for a relative path)
    and the names that follow it. *)
Record Path : Type := { anchor : string; names : list string }.

(** [p == q] *)
Definition Path_eq_dec (p q : Path) : {p = q} + {p <> q}.
Proof. decide equality; [apply (list_eq_dec string_dec)|apply string_dec]. Defined.

(** [p.parents]: the path cut after [k] names, for [k] from [len - 1] down
    to [0]. *)
Definition parents (p : Path) : list Path :=
  map (fun k => {| anchor := anchor p; names := firstn k (names p) |})
      (rev (seq 0 (length (names p)))).

(** [directory in l] *)
Definition contains (directory : Path) (l : list Path) : bool :=
  existsb (fun q => if Path_eq_dec directory q then true else false) l.

Inductive error : Type :=
| ValueError_no_paths               (* the input list of paths is empty *)
| ValueError_no_parents             (* the first path has no parent *)
| ValueError_no_shared_directory.

(** [_find_shared_directory] *)
Definition _find_shared_directory (paths : list Path) : error + Path :=
  match paths with
  | [] => inl ValueError_no_paths
  | path0 :: _ =>
      if Nat.eqb (length (parents path0)) 0 then inl ValueError_no_parents
      else
        match find (fun directory =>
                      forallb (fun p => contains directory (parents p)) paths)
                   (parents path0) with
        | Some directory => inr directory
        | None => inl ValueError_no_shared_directory
        end
  end.

(** [p.parent] of a path with a parent. *)
Definition parent (p : Path) : Path :=
  {| anchor := anchor p; names := removelast (names p) |}.

End Fetch.

(** ** Sorted knots and comparisons *)

Definition non_decreasing {FL : Float64} (l : list F) : Prop :=
  Sorted (fun a b => np_lt b a = false) l.

(** What the proofs use of [<], [<=] and [==]: no number is below itself,
    zero is a number, a comparison [<=] that holds is between numbers, and
    [x < y] excludes [y <= x].  The instances for binary64 and for integers
    are proved further down. *)
Class Comparisons (FL : Float64) : Prop := {
  flt_irrefl : forall x : F, flt x x = false;
  zero_not_nan : isnan (fofZ 0) = false;
  fle_nan : forall x y : F, fle x y = true -> isnan x = false /\ isnan y = false;
  flt_fle : forall x y : F, flt x y = true -> fle y x = false
}.

(** * Python sequences *)

Section Sequences.
Context {A : Type}.

Lemma len_app (l l' : list A) : len (l ++ l') = len l + len l'.
Proof. unfold len. rewrite length_app. lia. Qed.

Lemma len_repeat (x : A) n : len (repeat x n) = Z.of_nat n.
Proof. unfold len. now rewrite repeat_length. Qed.

Lemma len_nonneg (l : list A) : 0 <= len l.
Proof. unfold len. lia. Qed.

Lemma py_pos_nonneg (l : list A) i :
  0 <= i < len l -> py_pos l i = Ok (Z.to_nat i).
Proof.
  intros H. unfold py_pos.
  destruct (i <? 0) eqn:E; [lia|].
  destruct (i <? 0) eqn:E1; [lia|].
  destruct (len l <=? i) eqn:E2; [lia|]. reflexivity.
Qed.

Lemma py_index_nth_error (l : list A) i a :
  0 <= i -> nth_error l (Z.to_nat i) = Some a -> py_index l i = Ok a.
Proof.
  intros Hi Hn. unfold py_index.
  rewrite py_pos_nonneg.
  - simpl. now rewrite Hn.
  - split; [assumption|]. unfold len.
    assert (Z.to_nat i < length l)%nat by (apply nth_error_Some; congruence). lia.
Qed.

Lemma py_index_inv (l : list A) i a :
  py_index l i = Ok a -> In a l.
Proof.
  unfold py_index, py_pos.
  destruct (_ || _); simpl; [discriminate|].
  destruct (nth_error l _) eqn:E; [|discriminate].
  intros [= <-]. eapply nth_error_In; eauto.
Qed.

Lemma py_index_last (l : list A) a : py_index (l ++ [a]) (-1) = Ok a.
Proof.
  unfold py_index, py_pos.
  rewrite len_app. change (len [a]) with 1. change (-1 <? 0) with true. cbv iota.
  pose proof (len_nonneg l).
  destruct (-1 + (len l + 1) <? 0) eqn:E1; [lia|].
  destruct (len l + 1 <=? -1 + (len l + 1)) eqn:E2; [lia|]. cbn [orb rbind].
  replace (Z.to_nat (-1 + (len l + 1))) with (length l) by (unfold len; lia).
  rewrite nth_error_app2 by lia. now rewrite Nat.sub_diag.
Qed.

Lemma py_index_app_l (l l' : list A) i :
  0 <= i < len l -> py_index (l ++ l') i = py_index l i.
Proof.
  intros H. unfold py_index.
  rewrite !py_pos_nonneg by (rewrite ?len_app; pose proof (len_nonneg l'); lia).
  simpl. rewrite nth_error_app1 by (unfold len in H; lia). reflexivity.
Qed.

Lemma py_index_app_r (l l' : list A) i :
  len l <= i < len l + len l' -> py_index (l ++ l') i = py_index l' (i - len l).
Proof.
  intros H. unfold py_index. pose proof (len_nonneg l).
  rewrite !py_pos_nonneg by (rewrite ?len_app; lia).
  simpl. rewrite nth_error_app2 by (unfold len in H; lia).
  replace (Z.to_nat i - length l)%nat with (Z.to_nat (i - len l)) by (unfold len; lia).
  reflexivity.
Qed.

Lemma py_index_head (x : A) l : py_index (x :: l) 0 = Ok x.
Proof. apply py_index_nth_error; [lia|reflexivity]. Qed.

Lemma length_scatter (mask : list bool) (vals a : list A) :
  length (scatter mask vals a) = length a.
Proof.
  revert vals a. induction mask as [|m mask IH]; intros vals [|x a]; simpl; try reflexivity.
  destruct m; [destruct vals|]; simpl; now rewrite IH.
Qed.

Lemma length_set_nth i (v : A) l : length (set_nth i v l) = length l.
Proof.
  revert i. induction l as [|x l IH]; intros [|i]; simpl; try reflexivity.
  now rewrite IH.
Qed.

Lemma set_nth_app (l1 l2 : list A) x v :
  set_nth (length l1) v (l1 ++ x :: l2) = l1 ++ v :: l2.
Proof. induction l1 as [|y l1 IH]; simpl; [reflexivity|now rewrite IH]. Qed.

End Sequences.

Lemma py_range_length a b : length (py_range a b) = Z.to_nat (b - a).
Proof. unfold py_range. now rewrite length_map, length_seq. Qed.

Lemma py_range_nth a b k :
  (k < Z.to_nat (b - a))%nat -> nth_error (py_range a b) k = Some (a + Z.of_nat k).
Proof.
  intros H. unfold py_range. rewrite nth_error_map, nth_error_seq.
  destruct (Nat.ltb_spec k (Z.to_nat (b - a))); [reflexivity|lia].
Qed.

Lemma py_range_snoc a b : a <= b -> py_range a (b + 1) = py_range a b ++ [b].
Proof.
  intros H. unfold py_range.
  replace (Z.to_nat (b + 1 - a)) with (S (Z.to_nat (b - a))) by lia.
  rewrite seq_S, map_app. simpl. do 2 f_equal. lia.
Qed.

Section Loop.
Context {FL : Float64}.

Lemma np_eye_index n m i :
  0 <= m -> 0 <= i < n -> py_index (map (eye_row m) (py_range 0 n)) i = Ok (eye_row m i).
Proof.
  intros Hm Hi. apply py_index_nth_error; [lia|].
  rewrite nth_error_map, py_range_nth by lia. simpl. do 2 f_equal. lia.
Qed.

Lemma splev_accepts (x t : list F) c k der :
  0 <= der <= k -> x <> [] -> splev x t c k der = Ok (splev_values x t c k der).
Proof.
  intros Hder Hx. unfold splev.
  destruct (0 <=? der) eqn:E1; [|lia]. destruct (der <=? k) eqn:E2; [|lia].
  cbn [andb negb]. destruct x; [congruence|reflexivity].
Qed.

Lemma splev_inv (x t : list F) c k der v :
  splev x t c k der = Ok v ->
  0 <= der <= k /\ x <> [] /\ v = splev_values x t c k der.
Proof.
  unfold splev. destruct (0 <=? der) eqn:E1; [|discriminate].
  destruct (der <=? k) eqn:E2; [|discriminate]. cbn [andb negb].
  destruct x; [discriminate|]. intros [= <-].
  split; [lia|]. split; [discriminate|reflexivity].
Qed.

(** Whether [splev] refuses its input does not depend on the knots nor on
    the coefficients. *)
Lemma splev_refuses (x t t' : list F) c c' k der e :
  splev x t c k der = Raise e -> splev x t' c' k der = Raise e.
Proof.
  unfold splev. destruct (negb _); [auto|]. destruct x; [auto|discriminate].
Qed.

Lemma evaluate_loop_prefix (self : Spline FL) knots reps der xs mask c (n : nat) :
  0 <= reps ->
  0 <= der <= order self - 1 -> select mask xs <> [] ->
  Z.of_nat n <= len knots - order self - 2 * reps ->
  fold_left
    (fun acc i =>
       (b <- acc ;;
        c <- py_index (map (eye_row (len knots)) (py_range 0 (len knots - order self))) i ;;
        vals <- splev (select mask xs) knots c (order self - 1) der ;;
        set_masked_row b (i - reps) mask vals)%res)
    (py_range reps (reps + Z.of_nat n))
    (Ok {| ncols := c;
           rows := repeat (repeat (fofZ 0) (length xs))
                          (Z.to_nat (len knots - order self - 2 * reps)) |})
  = Ok {| ncols := c;
          rows := map (basis_row self knots der xs mask)
                      (py_range reps (reps + Z.of_nat n))
                  ++ repeat (repeat (fofZ 0) (length xs))
                       (Z.to_nat (len knots - order self - 2 * reps) - n) |}.
Proof.
  intros Hreps Hder Hsel. induction n as [|n IH]; intros Hn.
  - replace (reps + Z.of_nat 0) with reps by lia.
    unfold py_range. rewrite Z.sub_diag. simpl. now rewrite Nat.sub_0_r.
  - replace (reps + Z.of_nat (S n)) with (reps + Z.of_nat n + 1) by lia.
    rewrite py_range_snoc by lia.
    rewrite fold_left_app, IH by lia. cbn [fold_left rbind].
    rewrite np_eye_index by (pose proof (len_nonneg knots); lia).
    cbn [rbind]. rewrite (splev_accepts _ _ Hder Hsel). cbn [rbind].
    unfold set_masked_row.
    set (done := map _ (py_range reps (reps + Z.of_nat n))).
    assert (Hd : length done = n).
    { unfold done. rewrite length_map, py_range_length. lia. }
    replace (Z.to_nat (len knots - order self - 2 * reps) - n)%nat
      with (S (Z.to_nat (len knots - order self - 2 * reps) - S n)) by lia.
    cbn [repeat rows ncols].
    rewrite py_pos_nonneg.
    2:{ rewrite len_app. unfold len at 2. cbn [length]. rewrite repeat_length.
        unfold len at 1. rewrite Hd. lia. }
    cbn [rbind].
    erewrite py_index_nth_error; [| lia |].
    2:{ replace (Z.to_nat (reps + Z.of_nat n - reps)) with (length done) by lia.
        rewrite nth_error_app2 by lia. rewrite Nat.sub_diag. reflexivity. }
    cbn [rbind]. do 2 f_equal.
    replace (Z.to_nat (reps + Z.of_nat n - reps)) with (length done) by lia.
    rewrite set_nth_app, map_app, <- app_assoc. reflexivity.
Qed.

Lemma evaluate_loop_rows (self : Spline FL) knots reps der xs mask c :
  0 <= reps ->
  0 <= der <= order self - 1 -> select mask xs <> [] ->
  0 <= len knots - order self - 2 * reps ->
  evaluate_loop self knots reps der xs mask
    (map (eye_row (len knots)) (py_range 0 (len knots - order self)))
    {| ncols := c;
       rows := repeat (repeat (fofZ 0) (length xs))
                      (Z.to_nat (len knots - order self - 2 * reps)) |}
  = Ok {| ncols := c;
          rows := map (basis_row self knots der xs mask)
                      (py_range reps (len knots - order self - reps)) |}.
Proof.
  intros Hreps Hder Hsel HR. unfold evaluate_loop.
  pose proof (@evaluate_loop_prefix self knots reps der xs mask c
                (Z.to_nat (len knots - order self - 2 * reps)) Hreps Hder Hsel) as H.
  replace (reps + Z.of_nat (Z.to_nat (len knots - order self - 2 * reps)))
    with (len knots - order self - reps) in H by lia.
  rewrite H by lia. rewrite Nat.sub_diag. simpl. now rewrite app_nil_r.
Qed.

Lemma fold_left_Raise {A B} (f : A -> B -> result A) (g : A -> B -> result A) l e :
  fold_left (fun acc i => rbind acc (fun b => g b i)) l (Raise e) = Raise e.
Proof. induction l as [|i l IH]; [reflexivity|]. cbn [fold_left rbind]. exact IH. Qed.

(** With a row to fill, the loop stops at the first basis element when
    [splev] refuses the points. *)
Lemma evaluate_loop_refused (self : Spline FL) knots reps der xs mask b e :
  0 <= reps -> 0 < len knots - order self - 2 * reps ->
  splev (select mask xs) knots (eye_row (len knots) reps) (order self - 1) der = Raise e ->
  evaluate_loop self knots reps der xs mask
    (map (eye_row (len knots)) (py_range 0 (len knots - order self))) b
  = Raise e.
Proof.
  intros Hreps HR He. unfold evaluate_loop.
  assert (Hrange : py_range reps (len knots - order self - reps)
                   = reps :: py_range (reps + 1) (len knots - order self - reps)).
  { unfold py_range.
    replace (Z.to_nat (len knots - order self - reps - reps))
      with (S (Z.to_nat (len knots - order self - reps - (reps + 1)))) by lia.
    cbn [seq map]. f_equal; [lia|]. rewrite <- seq_shift, map_map.
    apply map_ext. intros k. lia. }
  rewrite Hrange. cbn [fold_left rbind].
  rewrite np_eye_index by (pose proof (len_nonneg knots); lia).
  cbn [rbind]. rewrite He. cbn [rbind].
  apply (fold_left_Raise (fun b i => Ok b)).
Qed.

(** A loop that returns has filled every row with the values of its basis
    element. *)
Lemma evaluate_loop_inv (self : Spline FL) knots reps der xs mask c m :
  0 <= reps -> 0 <= len knots - order self - 2 * reps ->
  evaluate_loop self knots reps der xs mask
    (map (eye_row (len knots)) (py_range 0 (len knots - order self)))
    {| ncols := c;
       rows := repeat (repeat (fofZ 0) (length xs))
                      (Z.to_nat (len knots - order self - 2 * reps)) |}
  = Ok m ->
  m = {| ncols := c;
         rows := map (basis_row self knots der xs mask)
                     (py_range reps (len knots - order self - reps)) |}.
Proof.
  intros Hreps HR H.
  destruct (Z.eq_dec (len knots - order self - 2 * reps) 0) as [H0|H0].
  - assert (Hr : Z.to_nat (len knots - order self - 2 * reps) = 0%nat) by lia.
    assert (Hrange : py_range reps (len knots - order self - reps) = []).
    { unfold py_range.
      replace (Z.to_nat (len knots - order self - reps - reps)) with 0%nat by lia.
      reflexivity. }
    unfold evaluate_loop in H. rewrite Hrange, Hr in H. cbn in H.
    injection H as <-. now rewrite Hrange.
  - destruct (splev (select mask xs) knots (eye_row (len knots) reps)
                (order self - 1) der) as [v|e] eqn:E.
    + apply splev_inv in E as (Hder & Hsel & _).
      rewrite (@evaluate_loop_rows self knots reps der xs mask c Hreps Hder Hsel HR) in H.
      now injection H.
    + rewrite (@evaluate_loop_refused self knots reps der xs mask _ e Hreps ltac:(lia) E) in H.
      discriminate.
Qed.


End Loop.

Section OnKnots.
Context {FL : Float64}.

Lemma np_ones_ok n : 0 <= n -> np_ones n = Ok (repeat (fofZ 1) (Z.to_nat n)).
Proof. intros H. unfold np_ones. destruct (n <? 0) eqn:E; [lia|reflexivity]. Qed.

Lemma np_ones_inv n l : np_ones n = Ok l -> 0 <= n /\ l = repeat (fofZ 1) (Z.to_nat n).
Proof.
  unfold np_ones. destruct (n <? 0) eqn:E; [discriminate|].
  intros [= <-]. split; [lia|reflexivity].
Qed.

Lemma len_scale_r (l : list F) s : len (scale_r l s) = len l.
Proof. unfold len, scale_r. now rewrite length_map. Qed.

Lemma len_scale (l : list F) s : len (scale s l) = len l.
Proof. unfold len, scale. now rewrite length_map. Qed.

Lemma outer_knots_inv (self : Spline FL) need knots kf kl knots' reps :
  outer_knots self need knots kf kl = Ok (knots', reps) ->
  0 <= reps /\ len knots' = len knots + 2 * reps /\
  (need = false -> knots' = knots /\ reps = 0) /\
  (need = true ->
     reps = order self - 1 /\
     knots' = scale_r (repeat (fofZ 1) (Z.to_nat reps)) kf ++ knots
              ++ scale_r (repeat (fofZ 1) (Z.to_nat reps)) kl).
Proof.
  unfold outer_knots. destruct need.
  - destruct (np_ones (order self - 1)) as [lo|] eqn:E; [|discriminate].
    apply np_ones_inv in E as [Hr ->]. cbn [rbind].
    intros [= <- <-]. repeat split; try lia; try discriminate.
    rewrite !len_app, !len_scale_r, len_repeat. lia.
  - intros [= <- <-]. repeat split; try lia; try discriminate.
Qed.

(** Past the range assertion [evaluate_on_knots] is the loop. *)
Lemma evaluate_on_knots_loop (self : Spline FL) knots xs outer_ok der
      need kf kl knots' reps :
  need_outer self knots xs = Ok need ->
  negb need || outer_ok = true ->
  py_index knots 0 = Ok kf ->
  py_index knots (-1) = Ok kl ->
  outer_knots self need knots kf kl = Ok (knots', reps) ->
  order self <= len knots ->
  evaluate_on_knots self knots xs outer_ok der
  = evaluate_loop self knots' reps der xs (in_sample kf kl xs)
      (map (eye_row (len knots')) (py_range 0 (len knots' - order self)))
      {| ncols := length xs;
         rows := repeat (repeat (fofZ 0) (length xs))
                        (Z.to_nat (len knots' - order self - 2 * reps)) |}.
Proof.
  intros Hneed Hok Hkf Hkl Hext Hlen.
  unfold evaluate_on_knots.
  rewrite Hneed. cbn [rbind]. rewrite Hok. cbn [negb].
  rewrite Hkf, Hkl. cbn [rbind]. rewrite Hext. cbn [rbind fst snd].
  pose proof Hext as Hx. apply outer_knots_inv in Hx as (Hr & Hl & _).
  unfold np_zeros, np_eye.
  pose proof (len_nonneg knots').
  destruct (len knots' - order self - 2 * reps <? 0) eqn:E1; [lia|].
  destruct (len knots' - order self <? 0) eqn:E2; [lia|].
  destruct (len knots' <? 0) eqn:E3; [lia|].
  reflexivity.
Qed.

(** The matrix that [evaluate_on_knots] builds when [splev] accepts the
    derivative order and the samples within the knots. *)
Lemma evaluate_on_knots_matrix (self : Spline FL) knots xs outer_ok der
      need kf kl knots' reps :
  need_outer self knots xs = Ok need ->
  negb need || outer_ok = true ->
  py_index knots 0 = Ok kf ->
  py_index knots (-1) = Ok kl ->
  outer_knots self need knots kf kl = Ok (knots', reps) ->
  order self <= len knots ->
  0 <= der <= order self - 1 ->
  select (in_sample kf kl xs) xs <> [] ->
  evaluate_on_knots self knots xs outer_ok der
  = Ok {| ncols := length xs;
          rows := map (basis_row self knots' der xs (in_sample kf kl xs))
                      (py_range reps (len knots' - order self - reps)) |}.
Proof.
  intros Hneed Hok Hkf Hkl Hext Hlen Hder Hsel.
  rewrite (@evaluate_on_knots_loop self knots xs outer_ok der need kf kl knots' reps
             Hneed Hok Hkf Hkl Hext Hlen).
  pose proof Hext as Hx. apply outer_knots_inv in Hx as (Hr & Hl & _).
  apply evaluate_loop_rows; try assumption; lia.
Qed.

(** What a returning [evaluate_on_knots] went through. *)
Lemma evaluate_on_knots_inv (self : Spline FL) knots xs outer_ok der m :
  evaluate_on_knots self knots xs outer_ok der = Ok m ->
  exists need kf kl knots' reps,
    need_outer self knots xs = Ok need /\
    negb need || outer_ok = true /\
    py_index knots 0 = Ok kf /\
    py_index knots (-1) = Ok kl /\
    outer_knots self need knots kf kl = Ok (knots', reps) /\
    order self <= len knots /\
    m = {| ncols := length xs;
           rows := map (basis_row self knots' der xs (in_sample kf kl xs))
                       (py_range reps (len knots' - order self - reps)) |}.
Proof.
  intros H. pose proof H as H0. unfold evaluate_on_knots in H.
  destruct (need_outer self knots xs) as [need|] eqn:Hneed; [|discriminate].
  cbn [rbind] in H.
  destruct (negb need || outer_ok) eqn:Hok; [|discriminate]. cbn [negb] in H.
  destruct (py_index knots 0) as [kf|] eqn:Hkf; [|discriminate].
  destruct (py_index knots (-1)) as [kl|] eqn:Hkl; [|discriminate].
  cbn [rbind] in H.
  destruct (outer_knots self need knots kf kl) as [[knots' reps]|] eqn:Hext;
    [|discriminate].
  cbn [rbind fst snd] in H.
  pose proof Hext as Hx. apply outer_knots_inv in Hx as (Hr & Hl & _).
  unfold np_zeros in H.
  destruct (len knots' - order self - 2 * reps <? 0) eqn:E1; [discriminate|].
  assert (Hlen : order self <= len knots) by lia.
  exists need, kf, kl, knots', reps. repeat split; try assumption.
  rewrite (@evaluate_on_knots_loop self knots xs outer_ok der need kf kl knots' reps
             Hneed Hok Hkf Hkl Hext Hlen) in H0.
  apply evaluate_loop_inv in H0; [exact H0|lia|lia].
Qed.

Lemma basis_row_length (self : Spline FL) knots der xs mask i :
  length (basis_row self knots der xs mask i) = length xs.
Proof. unfold basis_row. now rewrite length_scatter, repeat_length. Qed.

(** A returning [evaluate_on_knots] has one row per basis element and one
    column per sample. *)
Lemma evaluate_on_knots_shape (self : Spline FL) knots xs outer_ok der m :
  evaluate_on_knots self knots xs outer_ok der = Ok m ->
  shape m = (Z.to_nat (len knots - order self), length xs) /\ rectangular m.
Proof.
  intros H. apply evaluate_on_knots_inv in H
    as (need & kf & kl & knots' & reps & _ & _ & _ & _ & Hext & Hlen & ->).
  pose proof Hext as Hx. apply outer_knots_inv in Hx as (Hr & Hl & _).
  unfold shape, rectangular. cbn [rows ncols]. split.
  - rewrite length_map, py_range_length. f_equal. lia.
  - apply Forall_forall. intros r Hin. apply in_map_iff in Hin as (i & <- & _).
    apply basis_row_length.
Qed.

End OnKnots.

Section Knots.
Context {FL : Float64}.

Lemma linspace_length (a b : F) num : 0 <= num -> len (linspace a b num) = num.
Proof.
  intros H. unfold linspace, len.
  destruct (1 <? num) eqn:E.
  - rewrite length_app, length_map, py_range_length. simpl. lia.
  - rewrite length_map, py_range_length. lia.
Qed.


Lemma sort_insert_length (x : F) l : length (sort_insert x l) = S (length l).
Proof.
  induction l as [|y l IH]; simpl; [reflexivity|].
  destruct (np_lt y x); simpl; [now rewrite IH|reflexivity].
Qed.

Lemma np_sort_length (l : list F) : length (np_sort l) = length l.
Proof.
  induction l as [|x l IH]; simpl; [reflexivity|].
  now rewrite sort_insert_length, IH.
Qed.

(** Sorting leaves a non-decreasing array as it is. *)
Lemma np_sort_non_decreasing (l : list F) : non_decreasing l -> np_sort l = l.
Proof.
  unfold non_decreasing. induction 1 as [|x l Hs IH Hhd]; simpl; [reflexivity|].
  rewrite IH. destruct Hhd as [|y l Hyx]; simpl; [reflexivity|].
  now rewrite Hyx.
Qed.

Lemma generate_knots_ok (self : Spline FL) xs pl ph cyc s :
  1 <= order self -> 0 <= num_interior self cyc -> percentiles_ok pl ph = true ->
  _generate_knots self xs pl ph cyc s
  = (Ok (knot_vector self xs pl ph cyc), Some (knot_vector self xs pl ph cyc)).
Proof.
  intros Ho Hn Hp. unfold percentiles_ok in Hp.
  apply andb_true_iff in Hp as [Hp Hlt]. apply andb_true_iff in Hp as [Hl Hh].
  unfold _generate_knots, knot_vector, num_interior in *. cbv zeta.
  replace ((if cyc then s_n_basis_funcs self - order self + (order self - 1)
            else s_n_basis_funcs self - order self) <? 0) with false
    by (symmetry; destruct cyc; apply Z.ltb_ge; lia).
  rewrite Hl, Hh, Hlt. cbn [negb].
  unfold bind, lift, np_linspace. rewrite np_ones_ok by lia.
  destruct (_ + 2 <? 0) eqn:E; [destruct cyc; lia|].
  reflexivity.
Qed.

Lemma generate_knots_order_error (self : Spline FL) xs pl ph cyc s :
  fst (_generate_knots self xs pl ph cyc s) = Raise ValueError_order_larger_than_n_basis
  <-> num_interior self cyc < 0.
Proof.
  unfold _generate_knots, num_interior. cbv zeta.
  set (n := if cyc then _ else _).
  destruct (n <? 0) eqn:E.
  - simpl. split; [lia|reflexivity].
  - split; [|lia]. intros H. exfalso. revert H.
    repeat (match goal with |- context [if ?c then _ else _] => destruct c end;
            try (simpl; discriminate)).
    unfold bind, lift, np_ones, np_linspace.
    repeat (match goal with |- context [if ?c then _ else _] => destruct c end;
            try (simpl; discriminate)).
Qed.

Lemma generate_knots_inv (self : Spline FL) xs pl ph cyc s knots s' :
  _generate_knots self xs pl ph cyc s = (Ok knots, s') ->
  1 <= order self /\ 0 <= num_interior self cyc /\ percentiles_ok pl ph = true /\
  knots = knot_vector self xs pl ph cyc /\ s' = Some knots.
Proof.
  intros H.
  assert (Ho : 1 <= order self /\ 0 <= num_interior self cyc /\ percentiles_ok pl ph = true).
  { revert H. unfold _generate_knots, num_interior, percentiles_ok. cbv zeta.
    set (n := if cyc then _ + _ else _).
    destruct (n <? 0) eqn:E; [discriminate|].
    destruct (fle (fofZ 0) pl && fle pl (fofZ 1)); [|discriminate].
    destruct (fle (fofZ 0) ph && fle ph (fofZ 1)); [|discriminate].
    destruct (flt pl ph); [|discriminate]. cbn [negb andb].
    unfold bind, lift, np_ones.
    destruct (order self - 1 <? 0) eqn:E1; [discriminate|].
    intros _. repeat split; lia. }
  destruct Ho as (Ho & Hn & Hp).
  rewrite generate_knots_ok in H by assumption.
  injection H as <- <-. auto.
Qed.

(** Whether knot generation succeeds, and with what, does not depend on what
    [knot_locs] held before. *)
Lemma generate_knots_fresh (self : Spline FL) xs pl ph cyc s1 s2 :
  fst (_generate_knots self xs pl ph cyc s1) = fst (_generate_knots self xs pl ph cyc s2).
Proof.
  unfold _generate_knots.
  repeat (match goal with |- context [if ?c then _ else _] => destruct c end;
          try reflexivity).
  all: unfold bind, lift; destruct (np_ones _); [|reflexivity];
    destruct (np_linspace _ _ _); reflexivity.
Qed.

Lemma knot_vector_length (self : Spline FL) xs pl ph cyc :
  1 <= order self -> 0 <= num_interior self cyc ->
  len (knot_vector self xs pl ph cyc) = num_interior self cyc + 2 * order self.
Proof.
  intros Ho Hn. unfold knot_vector.
  rewrite !len_app, !len_scale, !len_repeat, linspace_length by lia. lia.
Qed.

End Knots.

Section Sorted_lists.
Context {A : Type} (R : A -> A -> Prop).




End Sorted_lists.

Section Evaluate.
Context {FL : Float64}.

(** [BSplineBasis.evaluate] is knot generation, a sort, and
    [evaluate_on_knots]; the attribute is deleted when the latter returns. *)
Lemma BSplineBasis_evaluate_run (self : Spline FL) xs outer_ok der s :
  BSplineBasis_evaluate self xs outer_ok der s
  = match _generate_knots self xs (fofZ 0) (fofZ 1) false s with
    | (Raise e, s') => (Raise e, s')
    | (Ok _, None) => (Raise AttributeError_knot_locs, None)
    | (Ok _, Some k) =>
        match evaluate_on_knots self (np_sort k) xs outer_ok der with
        | Ok m => (Ok m, None)
        | Raise e => (Raise e, Some (np_sort k))
        end
    end.
Proof.
  unfold BSplineBasis_evaluate. cbv zeta. unfold bind at 1.
  destruct (_generate_knots _ _ _ _ _ _) as [[kn|e] [k|]]; reflexivity.
Qed.

(** A returning evaluation ran on the sorted knot vector of its samples. *)
Lemma BSplineBasis_evaluate_inv (self : Spline FL) xs outer_ok der s m :
  fst (BSplineBasis_evaluate self xs outer_ok der s) = Ok m ->
  1 <= order self /\ order self <= s_n_basis_funcs self /\
  percentiles_ok (fofZ 0) (fofZ 1) = true /\
  evaluate_on_knots self (np_sort (knot_vector self xs (fofZ 0) (fofZ 1) false))
                    xs outer_ok der = Ok m.
Proof.
  rewrite BSplineBasis_evaluate_run.
  destruct (_generate_knots _ _ _ _ _ _) as [[kn|e] s'] eqn:E; [|discriminate].
  apply generate_knots_inv in E as (Ho & Hn & Hp & -> & ->).
  unfold num_interior in Hn.
  destruct (evaluate_on_knots _ _ _ _ _) eqn:E; [|discriminate].
  cbn [fst]. intros [= <-]. repeat split; try assumption; lia.
Qed.

(** The result has [n_basis_funcs] rows and one column per sample. *)
Lemma BSplineBasis_evaluate_shape (self : Spline FL) xs outer_ok der s m :
  fst (BSplineBasis_evaluate self xs outer_ok der s) = Ok m ->
  1 <= s_n_basis_funcs self /\
  shape m = (Z.to_nat (s_n_basis_funcs self), length xs) /\ rectangular m.
Proof.
  intros H. apply BSplineBasis_evaluate_inv in H as (Ho & Hn & _ & H).
  apply evaluate_on_knots_shape in H as [Hs Hr].
  split; [lia|]. split; [|assumption]. rewrite Hs. do 2 f_equal.
  unfold len. rewrite np_sort_length. fold (len (knot_vector self xs (fofZ 0) (fofZ 1) false)).
  rewrite knot_vector_length by (unfold num_interior; lia).
  unfold num_interior. lia.
Qed.

(** What [knot_locs] held before the call is never read. *)
Lemma BSplineBasis_evaluate_fresh (self : Spline FL) xs outer_ok der s1 s2 :
  fst (BSplineBasis_evaluate self xs outer_ok der s1)
  = fst (BSplineBasis_evaluate self xs outer_ok der s2).
Proof.
  rewrite !BSplineBasis_evaluate_run.
  destruct (_generate_knots self xs (fofZ 0) (fofZ 1) false s1) as [[k1|e1] t1] eqn:E1;
  destruct (_generate_knots self xs (fofZ 0) (fofZ 1) false s2) as [[k2|e2] t2] eqn:E2.
  - apply generate_knots_inv in E1 as (_ & _ & _ & -> & ->).
    apply generate_knots_inv in E2 as (_ & _ & _ & -> & ->).
    reflexivity.
  - pose proof (@generate_knots_fresh FL self xs (fofZ 0) (fofZ 1) false s1 s2) as H.
    rewrite E1, E2 in H. discriminate.
  - pose proof (@generate_knots_fresh FL self xs (fofZ 0) (fofZ 1) false s1 s2) as H.
    rewrite E1, E2 in H. discriminate.
  - pose proof (@generate_knots_fresh FL self xs (fofZ 0) (fofZ 1) false s1 s2) as H.
    rewrite E1, E2 in H. cbn [fst] in *. congruence.
Qed.

End Evaluate.

Section Supported.
Context {FL : Float64}.




Lemma linspace_head (a b : F) num :
  2 <= num -> exists p l, linspace a b num = p :: l.
Proof.
  intros H. pose proof (@linspace_length FL a b num) as Hl.
  destruct (linspace a b num) as [|p l]; [|eauto].
  unfold len in Hl. simpl in Hl. lia.
Qed.



Lemma select_in_sample (f : F -> bool) (xs : list F) :
  existsb (fun inside => inside) (map f xs) = true -> select (map f xs) xs <> [].
Proof.
  induction xs as [|x xs IH]; cbn [map existsb select]; [discriminate|].
  destruct (f x); [discriminate|]. exact IH.
Qed.

Lemma in_support_inv (self : Spline FL) xs :
  in_support self xs = true ->
  percentiles_ok (fofZ 0) (fofZ 1) = true /\
  exists kf kl,
    need_outer self (np_sort (knot_vector self xs (fofZ 0) (fofZ 1) false)) xs = Ok false /\
    py_index (np_sort (knot_vector self xs (fofZ 0) (fofZ 1) false)) 0 = Ok kf /\
    py_index (np_sort (knot_vector self xs (fofZ 0) (fofZ 1) false)) (-1) = Ok kl /\
    select (in_sample kf kl xs) xs <> [].
Proof.
  unfold in_support. cbv zeta. intros H. apply andb_true_iff in H as [Hp H].
  split; [exact Hp|].
  destruct (need_outer _ _ _) as [[|]|]; try discriminate.
  destruct (py_index _ 0) as [kf|]; [|discriminate].
  destruct (py_index _ (-1)) as [kl|]; [|discriminate].
  exists kf, kl. repeat split. now apply select_in_sample.
Qed.

(** With the memory ceiling out of the picture, evaluation of a B-spline basis
    with [1 <= order <= n_basis_funcs] returns on samples in its support,
    whatever [outer_ok] is. *)
Lemma BSplineBasis_evaluate_returns (self : Spline FL) xs outer_ok der s :
  1 <= order self -> order self <= s_n_basis_funcs self ->
  0 <= der <= order self - 1 ->
  in_support self xs = true ->
  exists m,
    BSplineBasis_evaluate self xs outer_ok der s = (Ok m, None) /\
    shape m = (Z.to_nat (s_n_basis_funcs self), length xs) /\ rectangular m.
Proof.
  intros Ho Hn Hder Hsup.
  apply in_support_inv in Hsup as (Hp & kf & kl & Hneed & Hkf & Hkl & Hsel).
  assert (Hni : 0 <= num_interior self false) by (unfold num_interior; lia).
  pose proof (@knot_vector_length FL self xs (fofZ 0) (fofZ 1) false Ho Hni) as Hlen.
  unfold num_interior in Hlen.
  set (knots := np_sort (knot_vector self xs (fofZ 0) (fofZ 1) false)) in *.
  assert (Hlk : len knots = s_n_basis_funcs self + order self).
  { unfold knots, len. rewrite np_sort_length. fold (len (knot_vector self xs (fofZ 0) (fofZ 1) false)). lia. }
  assert (Hrun : evaluate_on_knots self knots xs outer_ok der
                 = Ok {| ncols := length xs;
                         rows := map (basis_row self knots der xs (in_sample kf kl xs))
                                     (py_range 0 (len knots - order self - 0)) |}).
  { apply (@evaluate_on_knots_matrix FL self knots xs outer_ok der false kf kl knots 0);
      try assumption; try reflexivity. lia. }
  eexists. split.
  - rewrite BSplineBasis_evaluate_run.
    rewrite generate_knots_ok by assumption.
    fold knots. rewrite Hrun. reflexivity.
  - unfold shape, rectangular. cbn [rows ncols]. split.
    + rewrite length_map, py_range_length. do 2 f_equal. lia.
    + apply Forall_forall. intros r Hin. apply in_map_iff in Hin as (i & <- & _).
      apply basis_row_length.
Qed.

End Supported.

Section MoreSeq.
Context {A B C : Type}.

Lemma length_map2 (f : A -> B -> C) l l' :
  length (map2 f l l') = Nat.min (length l) (length l').
Proof.
  revert l'. induction l as [|x l IH]; intros [|y l']; simpl; try reflexivity.
  now rewrite IH.
Qed.

Lemma in_map2 (f : A -> B -> C) l l' z :
  In z (map2 f l l') -> exists x y, In x l /\ In y l' /\ z = f x y.
Proof.
  revert l'. induction l as [|x l IH]; intros [|y l']; simpl; try contradiction.
  intros [<- | H].
  - exists x, y. auto.
  - apply IH in H as (x' & y' & ? & ? & ?). exists x', y'. auto.
Qed.


End MoreSeq.

Section Cyclic.
Context {FL : Float64}.

Lemma add_masked_columns_shape (b x2 : matrix FL) ind m :
  add_masked_columns b ind x2 = Ok m -> rectangular b ->
  shape m = shape b /\ rectangular m.
Proof.
  unfold add_masked_columns.
  destruct (Nat.eqb _ _) eqn:E; [|discriminate].
  apply Nat.eqb_eq in E. intros [= <-] Hb.
  unfold shape, rectangular in *. cbn [rows ncols]. split.
  - rewrite length_map2, <- E, Nat.min_id. reflexivity.
  - apply Forall_forall. intros r Hr.
    apply in_map2 in Hr as (r1 & r2 & H1 & _ & ->).
    rewrite length_scatter. rewrite Forall_forall in Hb. now apply Hb.
Qed.

Lemma length_update_masked ind (f : F -> F) a :
  length (update_masked ind f a) = length a.
Proof. unfold update_masked. apply length_scatter. Qed.

(** What a returning cyclic evaluation went through: an evaluation of all the
    samples, and one of the samples above the threshold when there are any. *)
Lemma Cyclic_BSplineBasis_evaluate_inv (self : Spline FL) xs der s m buf :
  fst (Cyclic_BSplineBasis_evaluate self xs der s) = Ok (m, buf) ->
  exists m0 s0,
    fst (BSplineBasis_evaluate self xs true der s0) = Ok m0 /\
    (m = m0 \/ exists ind x2, add_masked_columns m0 ind x2 = Ok m).
Proof.
  unfold Cyclic_BSplineBasis_evaluate. cbv zeta.
  unfold bind at 1.
  destruct (_generate_knots _ _ _ _ _ _) as [[kn|e] s1]; [|discriminate].
  unfold bind at 1. unfold get_knot_locs at 1.
  destruct s1 as [kl|]; [|discriminate].
  unfold bind at 1. unfold set_knot_locs at 1.
  unfold bind at 1. unfold get_knot_locs at 1.
  unfold bind at 1. unfold lift at 1.
  destruct (py_index (np_sort (np_unique kl)) _) as [xc|]; [|discriminate].
  unfold bind at 1. unfold lift at 1.
  destruct (py_index (np_unique kl) 0) as [kf|]; [|discriminate].
  unfold bind at 1. unfold lift at 1.
  destruct (py_index (np_unique kl) (-1)) as [kl'|]; [|discriminate].
  unfold bind at 1. unfold set_knot_locs at 1.
  unfold bind at 1.
  match goal with |- context [BSplineBasis_evaluate self xs true der ?s0] =>
    destruct (BSplineBasis_evaluate self xs true der s0) as [[m0|e] s2] eqn:E0;
    [|discriminate]; pose (st0 := s0) end.
  unfold bind at 1. unfold lift at 1.
  destruct (np_max _) as [kmax|]; [|discriminate].
  unfold bind at 1. unfold lift at 1.
  destruct (py_index (np_sort (np_unique kl)) 0) as [ko|]; [|discriminate].
  unfold bind at 1.
  destruct (negb (count_true _ =? 0)).
  - unfold bind at 1.
    match goal with |- context [BSplineBasis_evaluate self ?a true der ?s0] =>
      destruct (BSplineBasis_evaluate self a true der s0) as [[x2|e] s3];
      [|discriminate] end.
    unfold lift at 1.
    destruct (add_masked_columns m0 _ x2) as [m1|] eqn:E1; [|discriminate].
    unfold ret. cbn [fst]. intros [= <- <-].
    exists m0, st0. split; [subst st0; now rewrite E0|].
    right. eauto.
  - unfold ret. cbn [fst]. intros [= <- <-].
    exists m0, st0. split; [subst st0; now rewrite E0|]. now left.
Qed.

Lemma Cyclic_BSplineBasis_evaluate_shape (self : Spline FL) xs der s m buf :
  fst (Cyclic_BSplineBasis_evaluate self xs der s) = Ok (m, buf) ->
  1 <= s_n_basis_funcs self /\
  shape m = (Z.to_nat (s_n_basis_funcs self), length xs) /\ rectangular m.
Proof.
  intros H. apply Cyclic_BSplineBasis_evaluate_inv in H as (m0 & s0 & H0 & Hm).
  apply BSplineBasis_evaluate_shape in H0 as (Hn & Hs & Hr).
  destruct Hm as [-> | (ind & x2 & Hadd)]; [auto|].
  apply add_masked_columns_shape in Hadd as [Hs' Hr']; [|assumption].
  rewrite Hs'. auto.
Qed.

End Cyclic.

(** * No validation error past the checks *)

Section PastValidation.
Context {FL : Float64}.

Lemma past_rbind {A B} (r : result A) (k : A -> result B) :
  past_validation r -> (forall a, past_validation (k a)) -> past_validation (rbind r k).
Proof. destruct r; simpl; auto. Qed.

Lemma past_bind {A B} (m : M A) (k : A -> M B) :
  (forall s, past_validation (fst (m s))) ->
  (forall a s, past_validation (fst (k a s))) ->
  forall s, past_validation (fst (bind m k s)).
Proof.
  intros Hm Hk s. unfold bind. specialize (Hm s).
  destruct (m s) as [[a|e] s']; simpl in *; auto.
Qed.

Lemma past_py_index {A} (l : list A) i : past_validation (py_index l i).
Proof.
  unfold py_index, py_pos. destruct (_ || _); simpl; [reflexivity|].
  destruct (nth_error _ _); simpl; reflexivity.
Qed.

Lemma past_np_ones n : past_validation (np_ones n).
Proof. unfold np_ones. destruct (_ <? _); simpl; reflexivity. Qed.

Lemma past_fold {A B} (f : result A -> B -> result A) l r :
  (forall r i, past_validation r -> past_validation (f r i)) ->
  past_validation r -> past_validation (fold_left f l r).
Proof. intros Hf. revert r. induction l; simpl; auto. Qed.

Lemma past_splev (x t : list F) c k der : past_validation (splev x t c k der).
Proof. unfold splev. destruct (negb _); [reflexivity|]. destruct x; simpl; auto. Qed.

Ltac past_step :=
  match goal with
  | |- past_validation (rbind _ _) => apply past_rbind; [|intros]
  | |- past_validation (py_index _ _) => apply past_py_index
  | |- past_validation (np_ones _) => apply past_np_ones
  | |- past_validation (splev _ _ _ _ _) => apply past_splev
  | |- past_validation (Ok _) => exact I
  | |- past_validation (Raise _) => reflexivity
  | |- past_validation (if ?c then _ else _) => destruct c
  | |- past_validation (fst (bind _ _ _)) => apply past_bind; intros
  | |- past_validation (fst (lift _ _)) => unfold lift; cbn [fst]
  | |- past_validation (fst (ret _ _)) => exact I
  | |- past_validation (fst (raise _ _)) => reflexivity
  | |- past_validation (fst (set_knot_locs _ _)) => exact I
  | |- past_validation (fst (get_knot_locs ?s)) => destruct s; simpl; auto
  | |- past_validation (fst (del_knot_locs ?s)) => destruct s; simpl; auto
  | |- past_validation (fst ((if ?c then _ else _) _)) => destruct c
  end.

Lemma past_evaluate_on_knots (self : Spline FL) knots xs outer_ok der :
  past_validation (evaluate_on_knots self knots xs outer_ok der).
Proof.
  unfold evaluate_on_knots, need_outer, outer_knots, np_zeros, np_eye.
  repeat past_step.
  unfold evaluate_loop. apply past_fold; [|exact I].
  intros r i Hr. unfold set_masked_row, py_pos. repeat past_step. assumption.
Qed.

Lemma past_generate_knots (self : Spline FL) xs pl ph cyc s :
  past_validation (fst (_generate_knots self xs pl ph cyc s)).
Proof.
  unfold _generate_knots, np_linspace. cbv zeta. repeat past_step.
Qed.

Lemma past_BSplineBasis_evaluate (self : Spline FL) xs outer_ok der s :
  past_validation (fst (BSplineBasis_evaluate self xs outer_ok der s)).
Proof.
  unfold BSplineBasis_evaluate. cbv zeta. repeat past_step.
  - apply past_generate_knots.
  - apply past_evaluate_on_knots.
Qed.

Lemma past_Cyclic_BSplineBasis_evaluate (self : Spline FL) xs der s :
  past_validation (fst (Cyclic_BSplineBasis_evaluate self xs der s)).
Proof.
  unfold Cyclic_BSplineBasis_evaluate. cbv zeta.
  repeat (past_step || apply past_generate_knots || apply past_BSplineBasis_evaluate).
  all: try (unfold np_max; match goal with |- context [match ?l with _ => _ end] =>
                             destruct l end; simpl; auto).
  all: unfold add_masked_columns; repeat past_step.
Qed.

(** The generation routines raise none of the three validation errors. *)
Lemma past_gen_model_matrix (b : Basis FL) x : past_validation (_gen_model_matrix b x).
Proof.
  revert x. induction b as [s | n g k b1 IH1 b2 IH2 | n g k b1 IH1 b2 IH2]; intros x.
  - cbn [_gen_model_matrix]. unfold Spline_gen_model_matrix.
    apply past_rbind; [apply past_py_index|]. intros x0.
    destruct (s_mode s); [|exact I].
    destruct (s_class s); apply past_rbind; intros; try exact I.
    + apply past_BSplineBasis_evaluate.
    + apply past_Cyclic_BSplineBasis_evaluate.
  - cbn [_gen_model_matrix].
    apply past_rbind; [apply IH1|]. intros a.
    apply past_rbind; [apply IH2|]. intros c.
    unfold vstack_results, np_vstack.
    destruct a, c; cbn [atleast_2d fst snd]; destruct (Nat.eqb _ _); simpl; auto.
  - cbn [_gen_model_matrix].
    apply past_rbind; [apply IH1|]. intros a.
    apply past_rbind; [apply IH2|]. intros c.
    unfold as_array, rowWiseKron. destruct a, c; simpl; auto.
    destruct (Nat.eqb _ _); simpl; auto.
Qed.

End PastValidation.

Section Validation.
Context {FL : Float64}.

Lemma check_samples_consistency_spec (x0 : list F) x :
  _check_samples_consistency (x0 :: x)
  = if existsb (fun samp => negb (len samp =? len x0)) (x0 :: x)
    then Raise ValueError_sample_size_mismatch else Ok tt.
Proof.
  assert (E : forall l : list (list F),
             existsb (fun elem => negb (elem =? len x0)) (map (fun samp => len samp) l)
             = existsb (fun samp => negb (len samp =? len x0)) l).
  { induction l as [|a l IH]; simpl; [reflexivity|]. now rewrite IH. }
  unfold _check_samples_consistency. cbn [map].
  change (len x0 :: map (fun samp => len samp) x)
    with (map (fun samp : list F => len samp) (x0 :: x)).
  now rewrite E.
Qed.

Lemma same_length_consistent N (x : list (list F)) :
  same_length N x -> _check_samples_consistency x = Ok tt.
Proof.
  intros H. destruct x as [|x0 x]; [reflexivity|].
  rewrite check_samples_consistency_spec.
  replace (existsb _ (x0 :: x)) with false; [reflexivity|].
  symmetry. apply not_true_is_false. intros E.
  apply existsb_exists in E as (s & Hs & E).
  unfold same_length in H. rewrite Forall_forall in H.
  pose proof (H s Hs). pose proof (H x0 (or_introl eq_refl)).
  unfold len in E. apply negb_true_iff, Z.eqb_neq in E. lia.
Qed.

Lemma consistent_same_length (x0 : list F) x :
  _check_samples_consistency (x0 :: x) = Ok tt -> same_length (length x0) (x0 :: x).
Proof.
  rewrite check_samples_consistency_spec.
  destruct (existsb _ _) eqn:E; [discriminate|]. intros _.
  apply Forall_forall. intros s Hs.
  destruct (Nat.eq_dec (length s) (length x0)) as [|Hne]; [assumption|].
  exfalso. apply not_true_iff_false in E. apply E.
  apply existsb_exists. exists s. split; [assumption|].
  apply negb_true_iff, Z.eqb_neq. unfold len. lia.
Qed.

Lemma check_samples_consistency_error (x : list (list F)) e :
  _check_samples_consistency x = Raise e -> e = ValueError_sample_size_mismatch.
Proof.
  destruct x as [|x0 x]; [discriminate|].
  rewrite check_samples_consistency_spec. destruct (existsb _ _); congruence.
Qed.

Lemma check_size_spec (b : Basis FL) (N : nat) :
  (within_limit b N -> _check_full_model_matrix_size b (Z.of_nat N) = Ok tt) /\
  (~ within_limit b N ->
   _check_full_model_matrix_size b (Z.of_nat N) = Raise MemoryError_model_matrix_size).
Proof.
  unfold _check_full_model_matrix_size, within_limit, itemsize_float64.
  destruct (Qle_bool _ _) eqn:E; cbn [negb]; split; intros H; try reflexivity.
  - exfalso. apply H. now apply Qle_bool_iff.
  - apply Qle_bool_iff in H. congruence.
Qed.

Lemma check_input_number_spec (b : Basis FL) x :
  _check_input_number b x
  = if Nat.eq_dec (length x) (n_input_samples b) then Ok tt
    else Raise ValueError_input_number_mismatch.
Proof.
  unfold _check_input_number.
  destruct (Nat.eq_dec _ _) as [E|E].
  - apply Nat.eqb_eq in E. now rewrite E.
  - apply Nat.eqb_neq in E. now rewrite E.
Qed.

(** [gen_model_matrix] on at least one stream, all of [N] samples: the size
    check decides, then the input count, then the routine of the class. *)
Lemma gen_model_matrix_trace_spec (b : Basis FL) x N :
  x <> [] -> same_length N x ->
  gen_model_matrix_trace b x
  = match _check_full_model_matrix_size b (Z.of_nat N) with
    | Raise e =>
        ([call_check_samples_consistency; call_check_full_model_matrix_size], Raise e)
    | Ok _ =>
        if Nat.eq_dec (length x) (n_input_samples b)
        then (all_calls, _gen_model_matrix b x)
        else ([call_check_samples_consistency; call_check_full_model_matrix_size;
               call_check_input_number], Raise ValueError_input_number_mismatch)
    end.
Proof.
  intros Hne Hs. unfold gen_model_matrix_trace.
  rewrite (same_length_consistent Hs).
  destruct x as [|x0 x]; [congruence|]. rewrite py_index_head.
  assert (Hx0 : len x0 = Z.of_nat N).
  { unfold len. f_equal. unfold same_length in Hs. now inversion Hs. }
  rewrite Hx0. destruct (_check_full_model_matrix_size _ _); [|reflexivity].
  rewrite check_input_number_spec. destruct (Nat.eq_dec _ _); reflexivity.
Qed.

Lemma gen_model_matrix_checked (b : Basis FL) x N :
  x <> [] -> same_length N x -> within_limit b N ->
  length x = n_input_samples b ->
  gen_model_matrix b x = _gen_model_matrix b x.
Proof.
  intros Hne Hs Hw Hk. unfold gen_model_matrix.
  rewrite (gen_model_matrix_trace_spec b Hne Hs).
  rewrite (proj1 (check_size_spec b N) Hw).
  destruct (Nat.eq_dec _ _); [reflexivity|contradiction].
Qed.

(** ** Shapes *)

Lemma same_length_firstn N k (x : list (list F)) :
  same_length N x -> same_length N (firstn k x).
Proof.
  unfold same_length. intros H. rewrite <- (firstn_skipn k x) in H.
  now apply Forall_app in H as [H _].
Qed.

Lemma same_length_skipn N k (x : list (list F)) :
  same_length N x -> same_length N (skipn k x).
Proof.
  unfold same_length. intros H. rewrite <- (firstn_skipn k x) in H.
  now apply Forall_app in H as [_ H].
Qed.

Lemma rowWiseKron_shape (a c m : matrix FL) :
  rowWiseKron a c = Ok m -> rectangular a -> rectangular c ->
  shape m = ((length (rows a) * length (rows c))%nat, ncols a) /\ rectangular m.
Proof.
  unfold rowWiseKron. destruct (Nat.eqb _ _) eqn:E; [|discriminate].
  apply Nat.eqb_eq in E. intros [= <-] Ha Hc.
  unfold shape, rectangular in *. cbn [rows ncols]. split.
  - f_equal. clear Ha. induction (rows a) as [|r l IH]; simpl; [reflexivity|].
    rewrite length_app, length_map, IH. reflexivity.
  - rewrite Forall_forall in *. intros r Hr.
    apply in_flat_map in Hr as (ra & Hra & Hr).
    apply in_map_iff in Hr as (rc & <- & Hrc).
    rewrite length_map2, (Ha _ Hra), (Hc _ Hrc), E. apply Nat.min_id.
Qed.

(** A generation routine that returns an array returns one of
    [n_basis_funcs] rows and [N] columns. *)
(** [np.vstack] gives a float array only from two float arrays. *)
Lemma vstack_results_array (a c : pyobj) m :
  vstack_results a c = Ok (PyArray m) ->
  exists m1 m2, a = PyArray m1 /\ c = PyArray m2 /\ np_vstack m1 m2 = Ok m.
Proof.
  unfold vstack_results.
  destruct a as [|m1|ca ra], c as [|m2|cc rc]; cbn [atleast_2d fst snd];
    try (destruct (Nat.eqb _ _); discriminate).
  destruct (np_vstack m1 m2) as [m'|] eqn:E; [|discriminate].
  cbn [rbind]. intros [= <-]. eauto.
Qed.

Lemma gen_model_matrix_shape (b : Basis FL) x N m :
  consistent b -> same_length N x ->
  _gen_model_matrix b x = Ok (PyArray m) ->
  1 <= n_basis_funcs b /\
  shape m = (Z.to_nat (n_basis_funcs b), N) /\ rectangular m.
Proof.
  revert x m.
  induction b as [s | n g k b1 IH1 b2 IH2 | n g k b1 IH1 b2 IH2];
    intros x m Hc Hs H; cbn [_gen_model_matrix consistent n_basis_funcs] in *.
  - unfold Spline_gen_model_matrix in H.
    destruct (py_index x 0) as [x0|] eqn:Ex; [|discriminate]. cbn [rbind] in H.
    assert (Hx0 : length x0 = N).
    { apply py_index_inv in Ex. unfold same_length in Hs.
      rewrite Forall_forall in Hs. now apply Hs. }
    destruct (s_mode s); [|discriminate].
    destruct (s_class s).
    + destruct (fst (BSplineBasis_evaluate _ _ _ _ _)) as [m0|] eqn:E; [|discriminate].
      cbn [rbind] in H. injection H as <-.
      apply BSplineBasis_evaluate_shape in E. now rewrite Hx0 in E.
    + destruct (fst (Cyclic_BSplineBasis_evaluate _ _ _ _)) as [[m0 buf]|] eqn:E;
        [|discriminate].
      cbn [rbind fst] in H. injection H as <-.
      apply Cyclic_BSplineBasis_evaluate_shape in E. now rewrite Hx0 in E.
  - destruct Hc as (-> & Hc1 & Hc2).
    destruct (_gen_model_matrix b1 _) as [a|] eqn:E1; [|discriminate].
    cbn [rbind] in H.
    destruct (_gen_model_matrix b2 _) as [c|] eqn:E2; [|discriminate].
    cbn [rbind] in H.
    apply vstack_results_array in H as (m1 & m2 & -> & -> & H).
    apply IH1 in E1 as (Hn1 & Hs1 & Hr1); [|assumption|now apply same_length_firstn].
    apply IH2 in E2 as (Hn2 & Hs2 & Hr2); [|assumption|now apply same_length_skipn].
    unfold np_vstack in H. destruct (Nat.eqb _ _); [|discriminate].
    injection H as <-.
    unfold shape, rectangular in *. cbn [rows ncols].
    injection Hs1 as Hl1 Hn1'. injection Hs2 as Hl2 Hn2'.
    split; [lia|]. split.
    + rewrite length_app, Hl1, Hl2, Hn1'. f_equal. lia.
    + apply Forall_app. split; [assumption|]. now rewrite Hn1', <- Hn2'.
  - destruct Hc as (-> & Hc1 & Hc2).
    destruct (_gen_model_matrix b1 _) as [a|] eqn:E1; [|discriminate].
    cbn [rbind] in H.
    destruct (_gen_model_matrix b2 _) as [c|] eqn:E2; [|discriminate].
    cbn [rbind] in H.
    destruct a as [|m1|]; try discriminate. destruct c as [|m2|]; try discriminate.
    cbn [rbind as_array] in H.
    apply IH1 in E1 as (Hn1 & Hs1 & Hr1); [|assumption|now apply same_length_firstn].
    apply IH2 in E2 as (Hn2 & Hs2 & Hr2); [|assumption|now apply same_length_skipn].
    destruct (rowWiseKron m1 m2) as [m'|] eqn:E; [|discriminate].
    cbn [rbind] in H. injection H as <-.
    apply rowWiseKron_shape in E as [Hs' Hr']; try assumption.
    unfold shape in *.
    injection Hs1 as Hl1 Hn1'. injection Hs2 as Hl2 Hn2'.
    split; [nia|]. split; [|assumption].
    rewrite Hs', Hl1, Hl2, Hn1'. f_equal. nia.
Qed.

End Validation.

(** * The comparison laws hold of integers and of binary64 *)

Module ExactLaws.
Import Exact.

Lemma isnan_false (x : Z) : isnan (FL:=integers) x = false.
Proof. unfold isnan. simpl. now rewrite Z.eqb_refl. Qed.

#[export] Instance integers_comparisons : Comparisons integers.
Proof.
  constructor.
  - intros x. apply Z.ltb_irrefl.
  - reflexivity.
  - intros x y _. now rewrite !isnan_false.
  - intros x y H. simpl in *. apply Z.ltb_lt in H. apply Z.leb_gt. lia.
Qed.

End ExactLaws.

Module Binary64Laws.
Import Binary64.


Lemma SFcompare_refl a : SFcompare a a = Some Eq \/ SFcompare a a = None.
Proof.
  destruct a as [s|s| |s m e]; cbn; auto.
  - left. destruct s; reflexivity.
  - left. rewrite Z.compare_refl.
    assert (H : Pos.compare_cont Eq m m = Eq) by apply Pos.compare_cont_refl.
    rewrite H. destruct s; reflexivity.
Qed.


Lemma ltb_irrefl x : PrimFloat.ltb x x = false.
Proof.
  rewrite FloatAxioms.ltb_spec. unfold SFltb.
  destruct (SFcompare_refl (Prim2SF x)) as [-> | ->]; reflexivity.
Qed.




End Binary64Laws.

Section Composites.
Context {FL : Float64}.

Lemma same_length_head N (x0 : list F) x : same_length N (x0 :: x) -> N = length x0.
Proof. intros H. unfold same_length in H. inversion H. congruence. Qed.

Lemma exceeds_not_within (b : Basis FL) N : exceeds_limit b N <-> ~ within_limit b N.
Proof.
  unfold exceeds_limit, within_limit. split.
  - apply Qlt_not_le.
  - apply Qnot_le_lt.
Qed.


Lemma consistent_addBasis (A B : Basis FL) :
  consistent A -> consistent B -> consistent (addBasis A B).
Proof. intros HA HB. simpl. auto. Qed.

Lemma consistent_mulBasis (A B : Basis FL) :
  consistent A -> consistent B -> consistent (mulBasis A B).
Proof. intros HA HB. simpl. auto. Qed.

Lemma gen_model_matrix_Add n g k (A B : Basis FL) x ma mb :
  _gen_model_matrix A (firstn (n_input_samples A) x) = Ok (PyArray ma) ->
  _gen_model_matrix B (skipn (n_input_samples A) x) = Ok (PyArray mb) ->
  _gen_model_matrix (Add n g k A B) x = rbind (np_vstack ma mb) (fun m => Ok (PyArray m)).
Proof. intros Ha Hb. cbn [_gen_model_matrix]. now rewrite Ha, Hb. Qed.




(** ** The order of the checks *)

Lemma gen_model_matrix_not_validation (b : Basis FL) x e :
  validation_error e = true -> _gen_model_matrix b x <> Raise e.
Proof.
  intros He H. pose proof (past_gen_model_matrix b x) as Hp.
  rewrite H in Hp. simpl in Hp. congruence.
Qed.

(** C4, as the code has it: on at least one stream the sample lengths are
    checked first, the memory bound (on that length) second and the input
    count last, so the call fails with the input-count error exactly when the
    streams have one length, the matrix fits the ceiling and the count is
    wrong; and then the three checks are all that ran. *)
Theorem gen_model_matrix_input_count_last (b : Basis FL) x :
  x <> [] ->
  (gen_model_matrix b x = Raise ValueError_input_number_mismatch <->
   (exists N, same_length N x /\ within_limit b N) /\
   length x <> n_input_samples b) /\
  (gen_model_matrix b x = Raise ValueError_input_number_mismatch ->
   fst (gen_model_matrix_trace b x)
   = [call_check_samples_consistency; call_check_full_model_matrix_size;
      call_check_input_number]).
Proof.
  intros Hne. destruct x as [|x0 x]; [congruence|].
  destruct (_check_samples_consistency (x0 :: x)) as [[]|e] eqn:Ec.
  - pose proof (@consistent_same_length _ x0 x Ec) as Hs.
    unfold gen_model_matrix.
    rewrite (@gen_model_matrix_trace_spec _ b _ _ Hne Hs).
    destruct (check_size_spec b (length x0)) as [Hin Hout].
    destruct (_check_full_model_matrix_size b (Z.of_nat (length x0))) as [[]|e] eqn:Em.
    + assert (Hw : within_limit b (length x0)).
      { destruct (Qlt_le_dec (GB_limit b * inject_Z (10 ^ 9))
                   (inject_Z (8 * Z.of_nat (length x0) * n_basis_funcs b))) as [Hlt|Hle];
          [|exact Hle].
        apply Qlt_not_le in Hlt. specialize (Hout Hlt). discriminate. }
      destruct (Nat.eq_dec _ _) as [Hk|Hk]; cbn [fst snd].
      * split; [split|].
        -- intros H. exfalso. revert H. now apply gen_model_matrix_not_validation.
        -- intros [_ H]. contradiction.
        -- intros H. exfalso. revert H. now apply gen_model_matrix_not_validation.
      * split; [split|]; try reflexivity. intros _. split; [eauto|assumption].
    + assert (Hw : ~ within_limit b (length x0)).
      { intros Hw. specialize (Hin Hw). discriminate. }
      pose proof (Hout Hw) as He. injection He as ->.
      cbn [fst snd]. split; [split|]; try discriminate.
      intros [(N & HsN & HwN) _]. apply same_length_head in HsN. subst N. contradiction.
  - apply check_samples_consistency_error in Ec as ?. subst e.
    unfold gen_model_matrix, gen_model_matrix_trace. rewrite Ec. cbn [fst snd].
    split; [split|]; try discriminate.
    intros [(N & HsN & _) _]. rewrite (@same_length_consistent _ N _ HsN) in Ec. discriminate.
Qed.

(** C5: on streams of [N] samples the call raises the memory error exactly
    when [8 * N * n_basis_funcs] exceeds [GB_limit * 10**9], and then only the
    two checks ran: the routine that builds the matrix was not called. *)
Theorem memory_check_before_generation (b : Basis FL) x N :
  x <> [] -> same_length N x ->
  (gen_model_matrix b x = Raise MemoryError_model_matrix_size <-> exceeds_limit b N) /\
  (exceeds_limit b N ->
   gen_model_matrix_trace b x
   = ([call_check_samples_consistency; call_check_full_model_matrix_size],
      Raise MemoryError_model_matrix_size)).
Proof.
  intros Hne Hs. unfold gen_model_matrix.
  rewrite (@gen_model_matrix_trace_spec _ b _ _ Hne Hs).
  destruct (check_size_spec b N) as [Hin Hout].
  destruct (Qlt_le_dec (GB_limit b * inject_Z (10 ^ 9))
              (inject_Z (8 * Z.of_nat N * n_basis_funcs b))) as [Hlt|Hle].
  - rewrite (Hout (Qlt_not_le _ _ Hlt)). cbn [snd]. split; [split|]; auto.
  - rewrite (Hin Hle).
    assert (Hno : ~ exceeds_limit b N) by (intros H; now apply Qlt_not_le in H).
    split; [split|]; try contradiction.
    destruct (Nat.eq_dec _ _); cbn [snd]; [|discriminate].
    intros H. exfalso. revert H. now apply gen_model_matrix_not_validation.
Qed.

(** ** The ceiling of a composite *)

Lemma set_GB_limit_counts g (b : Basis FL) :
  n_basis_funcs (set_GB_limit g b) = n_basis_funcs b /\
  n_input_samples (set_GB_limit g b) = n_input_samples b.
Proof. destruct b; split; reflexivity. Qed.

Lemma set_GB_limit_gen g (b : Basis FL) x :
  _gen_model_matrix (set_GB_limit g b) x = _gen_model_matrix b x.
Proof. destruct b as [s| |]; [destruct s|..]; reflexivity. Qed.

(** C10: a composite takes its ceiling from the left operand, and the
    ceiling of the right operand has no part in what [gen_model_matrix] of the
    composite does, whatever it is set to. *)
Theorem composite_GB_limit_from_left (A B : Basis FL) g x :
  GB_limit (addBasis A B) = GB_limit A /\
  GB_limit (mulBasis A B) = GB_limit A /\
  gen_model_matrix_trace (addBasis A (set_GB_limit g B)) x
  = gen_model_matrix_trace (addBasis A B) x /\
  gen_model_matrix_trace (mulBasis A (set_GB_limit g B)) x
  = gen_model_matrix_trace (mulBasis A B) x.
Proof.
  destruct (set_GB_limit_counts g B) as [Hn Hk].
  repeat split.
  - unfold gen_model_matrix_trace, addBasis,
      _check_full_model_matrix_size, _check_input_number.
    cbn [n_basis_funcs GB_limit n_input_samples _gen_model_matrix].
    now rewrite Hn, Hk, !set_GB_limit_gen.
  - unfold gen_model_matrix_trace, mulBasis,
      _check_full_model_matrix_size, _check_input_number.
    cbn [n_basis_funcs GB_limit n_input_samples _gen_model_matrix].
    now rewrite Hn, Hk, !set_GB_limit_gen.
Qed.

End Composites.

Section Leaves.
Context {FL : Float64}.

(** C1, with what the code asks of the stream: a B-spline basis in 'evaluate'
    mode with [1 <= order <= n_basis_funcs], on a stream of [N] samples whose
    matrix fits the memory ceiling, that passes the range assertion on the
    knots generated from it and has a sample within those knots, returns a
    matrix of [n_basis_funcs] rows and [N] columns. *)
Theorem BSplineBasis_model_matrix_shape n_basis order samples (b : Basis FL) :
  BSplineBasis n_basis order "evaluate"%string = Ok b ->
  1 <= order -> order <= n_basis ->
  within_limit b (length samples) ->
  streams_in_support b [samples] = true ->
  exists m,
    gen_model_matrix b [samples] = Ok (PyArray m) /\
    shape m = (Z.to_nat n_basis, length samples) /\ rectangular m.
Proof.
  intros Hb Ho Hn Hw Hsup.
  unfold BSplineBasis, SplineBasis_init in Hb.
  destruct (order <? 1) eqn:E; [lia|]. cbn in Hb. injection Hb as <-.
  rewrite (@gen_model_matrix_checked _ _ [samples] (length samples));
    try assumption; try discriminate; try reflexivity.
  2:{ repeat constructor. }
  cbn [_gen_model_matrix]. unfold Spline_gen_model_matrix.
  rewrite py_index_head. cbn [rbind s_mode s_class knot_locs].
  cbn [streams_in_support] in Hsup.
  match goal with |- context [BSplineBasis_evaluate ?self _ _ _ _] =>
    destruct (@BSplineBasis_evaluate_returns _ self samples false 0 None)
      as (m & Hm & Hs & Hr); [exact Ho|exact Hn| |exact Hsup|] end.
  { cbn. lia. }
  rewrite Hm. cbn [fst rbind]. exists m. auto.
Qed.

End Leaves.

Section Masks.
Context {A : Type}.


Lemma in_select (f : A -> bool) (a : list A) x :
  In x (select (map f a) a) -> f x = true.
Proof.
  induction a as [|y a IH]; simpl; [contradiction|].
  destruct (f y) eqn:E; simpl; [intros [<- | H]|]; auto.
Qed.

Lemma nth_error_scatter_false (mask : list bool) (vals a : list A) n :
  nth_error mask n = Some false ->
  nth_error (scatter mask vals a) n = nth_error a n.
Proof.
  revert mask vals a. induction n as [|n IH]; intros [|m mask] vals [|x a]; simpl;
    try discriminate; try reflexivity.
  - intros [= ->]. reflexivity.
  - intros H. destruct m; [destruct vals|]; simpl; now apply IH.
Qed.

End Masks.

Section RangeCheck.
Context {FL : Float64} {C : Comparisons FL}.





(** C8, as the code has it: whatever knot vector is stored in [knot_locs]
    when [BSplineBasis.evaluate] is entered, the result is the same as with
    none stored; so the matrix that a returning [Cyclic_BSplineBasis.evaluate]
    builds on comes from the sorted, non-cyclic knots generated from the
    unshifted samples, not from the extended knots it stored. *)
Theorem cyclic_knots_overwritten (self : Spline FL) xs der :
  (forall stored outer_ok,
     fst (BSplineBasis_evaluate self xs outer_ok der (Some stored))
     = fst (BSplineBasis_evaluate self xs outer_ok der None)) /\
  (forall s m buf,
     fst (Cyclic_BSplineBasis_evaluate self xs der s) = Ok (m, buf) ->
     exists m0,
       evaluate_on_knots self
         (np_sort (knot_vector self xs (fofZ 0) (fofZ 1) false)) xs true der = Ok m0 /\
       (m = m0 \/ exists ind x2, add_masked_columns m0 ind x2 = Ok m)).
Proof.
  split.
  - intros stored outer_ok. apply BSplineBasis_evaluate_fresh.
  - intros s m buf H.
    apply Cyclic_BSplineBasis_evaluate_inv in H as (m0 & s0 & H0 & Hm).
    apply BSplineBasis_evaluate_inv in H0 as (_ & _ & _ & H0).
    exists m0. split; assumption.
Qed.

End RangeCheck.

Module Examples.
Import Exact ExactLaws.

(** C1 as stated fails on the memory ceiling:
    [BSplineBasis(2000000001, order=1)] on one sample needs 16000000008
    bytes. *)
Lemma BSplineBasis_shape_over_limit :
  BSplineBasis (FL:=integers) 2000000001 1 "evaluate" = Ok (Leaf (spline 2000000001 1)) /\
  1 <= 1 <= 2000000001 /\
  gen_model_matrix (Leaf (spline 2000000001 1)) [[0]]
  = Raise MemoryError_model_matrix_size.
Proof. split; [reflexivity|]. split; [lia|]. vm_compute. reflexivity. Qed.



(** The scenario of the sum and the product of two bases of 6 functions of
    order 4, here on two streams of 7 samples: 12 and 36 rows. *)
Example sum_and_product_shapes :
  let b := Leaf (spline 6 4) in
  let x := [[0; 10; 20; 30; 40; 50; 60]; [3; 1; 4; 1; 5; 9; 2]] in
  let shape_of r := rbind r (fun v => rbind (as_array v) (fun m => Ok (shape m))) in
  shape_of (gen_model_matrix (addBasis b b) x) = Ok (12, 7)%nat /\
  shape_of (gen_model_matrix (mulBasis b b) x) = Ok (36, 7)%nat.
Proof. vm_compute. split; reflexivity. Qed.

(** C4 as stated fails: with two streams of different lengths given to a
    basis of one input, the length check answers, not the input count; and
    with no stream at all the call stops on [x[0]]. *)
Lemma input_count_not_checked_first :
  length [[0; 1]; [0]] <> n_input_samples (Leaf (spline 6 4)) /\
  gen_model_matrix (Leaf (spline 6 4)) [[0; 1]; [0]]
  = Raise ValueError_sample_size_mismatch /\
  gen_model_matrix (Leaf (spline 6 4)) [] = Raise IndexError.
Proof. split; [discriminate|]. split; reflexivity. Qed.

Lemma gen_model_matrix_input_count_last_witness :
  gen_model_matrix (Leaf (spline 6 4)) [[0; 1]; [2; 3]]
  = Raise ValueError_input_number_mismatch /\
  fst (gen_model_matrix_trace (Leaf (spline 6 4)) [[0; 1]; [2; 3]])
  = [call_check_samples_consistency; call_check_full_model_matrix_size;
     call_check_input_number].
Proof.
  destruct (@gen_model_matrix_input_count_last integers (Leaf (spline 6 4))
              [[0; 1]; [2; 3]] ltac:(discriminate)) as [[_ Hiff] Htrace].
  assert (H : gen_model_matrix (Leaf (spline 6 4)) [[0; 1]; [2; 3]]
              = Raise ValueError_input_number_mismatch).
  { apply Hiff. split; [|discriminate].
    exists 2%nat. split; [repeat constructor|]. apply Qle_bool_iff. reflexivity. }
  split; [exact H|exact (Htrace H)].
Defined.

Lemma memory_check_before_generation_witness :
  gen_model_matrix_trace (Leaf (spline 2000000001 1)) [[0]]
  = ([call_check_samples_consistency; call_check_full_model_matrix_size],
     Raise MemoryError_model_matrix_size).
Proof.
  destruct (@memory_check_before_generation integers (Leaf (spline 2000000001 1))
              [[0]] 1 ltac:(discriminate) ltac:(repeat constructor)) as [_ H].
  apply H. reflexivity.
Defined.


End Examples.

Module Binary64Examples.
Import Binary64 Binary64Laws.

(** C1 on float64: the stream [0.1, 0.25, 0.3] is in the support of
    [BSplineBasis(6, order=4)]. *)
Lemma BSplineBasis_model_matrix_shape_witness :
  exists m,
    gen_model_matrix (Leaf (bspline 6 4)) [[d0_1; d0_25; d0_3]] = Ok (PyArray m) /\
    shape m = (Z.to_nat 6, length [d0_1; d0_25; d0_3]) /\ rectangular m.
Proof.
  apply (@BSplineBasis_model_matrix_shape binary64 6 4 [d0_1; d0_25; d0_3]
           (Leaf (bspline 6 4)) eq_refl).
  - lia.
  - lia.
  - apply Qle_bool_iff. reflexivity.
  - vm_compute. reflexivity.
Defined.

(** The bound on the memory does not suffice for C1: on the finite stream
    [-2^1023, 2^1023] the step of [linspace] overflows, a knot is a NaN, and
    the range assertion fails; on a stream of NaN no sample is within the
    knots and [splev] is given no point. *)
Lemma BSplineBasis_shape_overflow :
  gen_model_matrix (Leaf (bspline 2 2)) [[PrimFloat.opp d2p1023; d2p1023]]
  = Raise AssertionError_outside_knots_range /\
  gen_model_matrix (Leaf (bspline 2 2)) [[nan; nan]]
  = Raise ValueError_splev_invalid_input.
Proof. split; vm_compute; reflexivity. Qed.

(** The knots of C6 on the same stream: the second of them is a NaN. *)
Lemma generate_knots_overflow :
  exists k0 k1 k2 k3,
    fst (_generate_knots (bspline 2 2) [PrimFloat.opp d2p1023; d2p1023]
           0%float 1%float false None)
    = Ok [k0; k1; k2; k3] /\
    is_nan k1 = true /\ is_nan k2 = false /\
    ~ non_decreasing (FL:=binary64) [k0; k1; k2; k3].
Proof.
  do 4 eexists. split; [vm_compute; reflexivity|].
  split; [reflexivity|]. split; [reflexivity|].
  intros H. inversion H as [|a l Hs Hh]; subst.
  inversion Hs as [|a' l' Hs' Hh']; subst.
  inversion Hh' as [|b l'' Hb]; subst. vm_compute in Hb. discriminate.
Qed.



(** Through [evaluate] itself with [outer_ok] true: on [-2^1023, 2^1023] a
    sample is below [knots[order - 1]], the last of the sorted knots is a
    NaN and no sample is within the knots; on a stream of NaN none is
    either.  In both cases [splev] is given no point. *)
Lemma evaluate_outer_ok_without_sample_in_range :
  fst (BSplineBasis_evaluate (bspline 2 2) [PrimFloat.opp d2p1023; d2p1023] true 0 None)
  = Raise ValueError_splev_invalid_input /\
  fst (BSplineBasis_evaluate (bspline 2 2) [nan; nan] true 0 None)
  = Raise ValueError_splev_invalid_input.
Proof. split; vm_compute; reflexivity. Qed.


(** C9 fails on the code: [Cyclic_BSplineBasis(4, order=2).evaluate] on the
    array [0.1, 0.25, 0.3] returns, and leaves
    [0.1, 0.24999999999999997, 0.30000000000000004] in the array.  The two
    samples above the threshold went through [x - 0.3 + 0.1] and back through
    [x + 0.3 - 0.1], and each sum is rounded. *)
Theorem cyclic_evaluate_changes_samples sp :
  (exists m,
     fst (Cyclic_BSplineBasis_evaluate (cyclic_4_2 sp) [d0_1; d0_25; d0_3] 0 None)
     = Ok (m, [d0_1; d0_25_prev; d0_3_next])) /\
  PrimFloat.eqb d0_25_prev d0_25 = false /\
  PrimFloat.eqb d0_3_next d0_3 = false.
Proof.
  split; [|split; reflexivity]. eexists. vm_compute. reflexivity.
Qed.

End Binary64Examples.

(** * Bases built by the constructors *)

Section Constructors.
Context {FL : Float64}.

(** What [SplineBasis.__init__] leaves in an object that it accepts. *)
Lemma SplineBasis_init_inv cls n ord eval_type (s : Spline FL) :
  SplineBasis_init cls n ord eval_type = Ok s ->
  1 <= ord /\
  (eval_type = "evaluate"%string /\ s_mode s = mode_evaluate \/
   eval_type = "convolve"%string /\ s_mode s = mode_convolve) /\
  s_class s = cls /\ s_n_basis_funcs s = n /\ s_GB_limit s = 16%Q /\
  order s = ord /\ s_n_input_samples s = 1%nat /\ knot_locs s = None.
Proof.
  unfold SplineBasis_init. destruct (ord <? 1) eqn:E; [discriminate|].
  apply Z.ltb_ge in E.
  destruct (String.eqb eval_type "evaluate") eqn:E1.
  - apply String.eqb_eq in E1. intros [= <-]. cbn. tauto.
  - destruct (String.eqb eval_type "convolve") eqn:E2; [|discriminate].
    apply String.eqb_eq in E2. intros [= <-]. cbn. tauto.
Qed.

Lemma BSplineBasis_inv n order eval_type (b : Basis FL) :
  BSplineBasis n order eval_type = Ok b ->
  exists s, b = Leaf s /\ SplineBasis_init BSpline n order eval_type = Ok s.
Proof.
  unfold BSplineBasis. destruct (SplineBasis_init _ _ _ _) as [s|]; [|discriminate].
  intros [= <-]. now exists s.
Qed.

Lemma Cyclic_BSplineBasis_inv n order eval_type (b : Basis FL) :
  Cyclic_BSplineBasis n order eval_type = Ok b ->
  exists s, b = Leaf s /\ SplineBasis_init Cyclic_BSpline n order eval_type = Ok s /\
            2 <= order /\ order + 2 <= n /\ 2 * order - 2 <= n.
Proof.
  unfold Cyclic_BSplineBasis. destruct (SplineBasis_init _ _ _ _) as [s|]; [|discriminate].
  cbn [rbind].
  destruct (2 <=? order) eqn:E1; [|discriminate].
  destruct (order + 2 <=? n) eqn:E2; [|discriminate].
  destruct (2 * order - 2 <=? n) eqn:E3; [|discriminate].
  cbn [negb]. intros [= <-]. exists s. repeat split; try reflexivity; lia.
Qed.

Lemma constructed_counts (b : Basis FL) :
  constructed b ->
  consistent b /\ n_input_samples b = n_leaves b /\ GB_limit b = 16%Q.
Proof.
  induction 1 as [n o et b H|n o et b H|A B _ (HcA & HkA & HgA) _ (HcB & HkB & HgB)
                 |A B _ (HcA & HkA & HgA) _ (HcB & HkB & HgB)].
  - apply BSplineBasis_inv in H as (s & -> & H).
    apply SplineBasis_init_inv in H as (_ & _ & _ & _ & Hg & _ & Hk & _).
    cbn. auto.
  - apply Cyclic_BSplineBasis_inv in H as (s & -> & H & _).
    apply SplineBasis_init_inv in H as (_ & _ & _ & _ & Hg & _ & Hk & _).
    cbn. auto.
  - cbn. repeat split; auto.
  - cbn. repeat split; auto.
Qed.

Lemma evaluable_constructed (b : Basis FL) : evaluable b -> constructed b.
Proof.
  induction 1 as [n o b H _|].
  - exact (constructed_BSplineBasis _ _ _ H).
  - now apply constructed_add.
Qed.

Lemma n_leaves_pos (b : Basis FL) : (1 <= n_leaves b)%nat.
Proof. induction b; cbn; lia. Qed.

Lemma within_default_limit (b : Basis FL) N :
  GB_limit b = 16%Q ->
  (within_limit b N <-> Z.of_nat N * n_basis_funcs b <= 2000000000).
Proof.
  intros Hg. unfold within_limit. rewrite Hg. unfold Qle.
  cbn [Qnum Qden Qmult inject_Z]. change (10 ^ 9) with 1000000000. lia.
Qed.

(** X1: a basis built by the constructors, [+] and [*] expects one stream per
    spline it is made of and has the default ceiling of 16 GB, which no
    constructor lets one choose: on streams of [N] samples it raises the
    memory error exactly when [N * n_basis_funcs] exceeds [2 * 10**9]. *)
Theorem constructed_memory_ceiling (b : Basis FL) :
  constructed b ->
  n_input_samples b = n_leaves b /\ GB_limit b = 16%Q /\
  forall x N, x <> [] -> same_length N x ->
    (gen_model_matrix b x = Raise MemoryError_model_matrix_size
     <-> 2000000000 < Z.of_nat N * n_basis_funcs b).
Proof.
  intros Hc. destruct (constructed_counts Hc) as (_ & Hk & Hg).
  split; [exact Hk|]. split; [exact Hg|].
  intros x N Hne Hs. unfold gen_model_matrix.
  rewrite (@gen_model_matrix_trace_spec _ b _ _ Hne Hs).
  destruct (check_size_spec b N) as [Hin Hout].
  pose proof (within_default_limit b N Hg) as Hw.
  destruct (Z_le_gt_dec (Z.of_nat N * n_basis_funcs b) 2000000000) as [Hle|Hgt].
  - rewrite (Hin (proj2 Hw Hle)). split; [|lia].
    destruct (Nat.eq_dec _ _); cbn [snd]; [|discriminate].
    intros H. exfalso. revert H. now apply gen_model_matrix_not_validation.
  - rewrite Hout; [cbn [snd]; split; [lia|reflexivity]|].
    intros H. apply Hw in H. lia.
Qed.

(** X2: [BSplineBasis] accepts an order above [n_basis_funcs]; the error comes
    when the basis is evaluated, on any stream whose matrix would fit the
    ceiling. *)
Theorem BSplineBasis_order_checked_late n order samples (b : Basis FL) :
  BSplineBasis n order "evaluate" = Ok b ->
  n < order ->
  within_limit b (length samples) ->
  gen_model_matrix b [samples] = Raise ValueError_order_larger_than_n_basis.
Proof.
  intros Hb Hlt Hw.
  apply BSplineBasis_inv in Hb as (s & -> & Hs).
  apply SplineBasis_init_inv in Hs
    as (Ho & [[_ Hm]|[He _]] & Hc & Hn & _ & Hord & Hk & Hkl); [|discriminate].
  rewrite (@gen_model_matrix_checked _ _ [samples] (length samples));
    try assumption; try discriminate.
  2:{ repeat constructor. }
  2:{ cbn. now rewrite Hk. }
  cbn [_gen_model_matrix]. unfold Spline_gen_model_matrix.
  rewrite py_index_head. cbn [rbind]. rewrite Hm, Hc.
  assert (H : fst (BSplineBasis_evaluate s samples false 0 (knot_locs s))
              = Raise ValueError_order_larger_than_n_basis).
  { rewrite BSplineBasis_evaluate_run.
    pose proof (proj2 (@generate_knots_order_error _ s samples (fofZ 0) (fofZ 1) false
                         (knot_locs s))) as Hg.
    destruct (_generate_knots s samples (fofZ 0) (fofZ 1) false (knot_locs s))
      as [[k|e] s'].
    - cbn [fst] in Hg. unfold num_interior in Hg. rewrite Hn, Hord in Hg.
      specialize (Hg ltac:(lia)). discriminate.
    - cbn [fst] in *. assert (He : e = ValueError_order_larger_than_n_basis).
      { enough (H : @Raise (list F) e = Raise ValueError_order_larger_than_n_basis)
          by now injection H.
        apply Hg. unfold num_interior. rewrite Hn, Hord. lia. }
      now rewrite He. }
  rewrite H. reflexivity.
Qed.

(** X3: a spline basis built with [eval_type='convolve'] returns [None] for any
    stream whose matrix would fit the ceiling, whatever its order: no knot is
    generated and no order is compared with [n_basis_funcs]. *)
Theorem convolve_returns_None n order samples (b : Basis FL) :
  BSplineBasis n order "convolve" = Ok b \/
  Cyclic_BSplineBasis n order "convolve" = Ok b ->
  within_limit b (length samples) ->
  gen_model_matrix b [samples] = Ok PyNone.
Proof.
  intros Hb Hw.
  assert (Hs : exists cls s, b = Leaf s /\ SplineBasis_init cls n order "convolve" = Ok s).
  { destruct Hb as [Hb|Hb].
    - apply BSplineBasis_inv in Hb as (s & -> & Hs). eauto.
    - apply Cyclic_BSplineBasis_inv in Hb as (s & -> & Hs & _). eauto. }
  destruct Hs as (cls & s & -> & Hs).
  apply SplineBasis_init_inv in Hs
    as (Ho & [[He _]|[_ Hm]] & Hc & Hn & _ & Hord & Hk & Hkl); [discriminate|].
  rewrite (@gen_model_matrix_checked _ _ [samples] (length samples));
    try assumption; try discriminate.
  2:{ repeat constructor. }
  2:{ cbn. now rewrite Hk. }
  cbn [_gen_model_matrix]. unfold Spline_gen_model_matrix.
  rewrite py_index_head. cbn [rbind]. now rewrite Hm.
Qed.

(** X4: [Cyclic_BSplineBasis] returns an object exactly for an order of at
    least 2, [n_basis_funcs >= order + 2], [n_basis_funcs >= 2 * order - 2] and
    one of the two evaluation types; the object has one input, the 16 GB
    ceiling and no knots. *)
Theorem Cyclic_BSplineBasis_accepts n order eval_type (b : Basis FL) :
  Cyclic_BSplineBasis n order eval_type = Ok b <->
  2 <= order /\ order + 2 <= n /\ 2 * order - 2 <= n /\
  exists mode,
    (eval_type = "evaluate"%string /\ mode = mode_evaluate \/
     eval_type = "convolve"%string /\ mode = mode_convolve) /\
    b = Leaf {| s_class := Cyclic_BSpline; s_n_basis_funcs := n; s_GB_limit := 16%Q;
                order := order; s_n_input_samples := 1; s_mode := mode;
                knot_locs := None |}.
Proof.
  split.
  - intros H. apply Cyclic_BSplineBasis_inv in H as (s & -> & Hs & H1 & H2 & H3).
    apply SplineBasis_init_inv in Hs as (_ & Hm & Hc & Hn & Hg & Ho & Hk & Hkl).
    repeat split; try assumption. exists (s_mode s). split; [exact Hm|].
    destruct s. cbn in *. now subst.
  - intros (H1 & H2 & H3 & mode & Hm & ->).
    unfold Cyclic_BSplineBasis, SplineBasis_init.
    destruct (order <? 1) eqn:E; [lia|].
    destruct Hm as [[-> ->]|[-> ->]]; cbn [String.eqb rbind];
      (destruct (2 <=? order) eqn:E1; [|lia]);
      (destruct (order + 2 <=? n) eqn:E2; [|lia]);
      (destruct (2 * order - 2 <=? n) eqn:E3; [|lia]); reflexivity.
Qed.

(** X5: with no stream at all [gen_model_matrix] raises [IndexError], from
    [x[0]] after the first check; with streams of different lengths it raises
    the sample-size error, whatever the basis, its ceiling and the number of
    streams it expects. *)
Theorem gen_model_matrix_first_failures (b : Basis FL) :
  gen_model_matrix_trace b [] = ([call_check_samples_consistency], Raise IndexError) /\
  forall x, x <> [] -> (forall N, ~ same_length N x) ->
    gen_model_matrix_trace b x
    = ([call_check_samples_consistency], Raise ValueError_sample_size_mismatch).
Proof.
  split; [reflexivity|]. intros x Hne Hno.
  destruct x as [|x0 x]; [congruence|].
  unfold gen_model_matrix_trace.
  destruct (_check_samples_consistency (x0 :: x)) as [[]|e] eqn:Ec.
  - apply consistent_same_length in Ec. now apply Hno in Ec.
  - apply check_samples_consistency_error in Ec as ->. reflexivity.
Qed.

End Constructors.

(** * Sums of sums *)

Section Sums.
Context {FL : Float64}.





End Sums.

(** * The knots attribute around an evaluation *)

Section KnotLocs.
Context {FL : Float64}.

Lemma generate_knots_failure_state (self : Spline FL) xs pl ph cyc s e s' :
  _generate_knots self xs pl ph cyc s = (Raise e, s') ->
  s' = s /\ e <> AssertionError_outside_knots_range /\ e <> IndexError.
Proof.
  unfold _generate_knots. cbv zeta.
  destruct (_ <? 0); [unfold raise; intros [= <- <-]; repeat split; discriminate|].
  destruct (negb _); [unfold raise; intros [= <- <-]; repeat split; discriminate|].
  destruct (negb _); [unfold raise; intros [= <- <-]; repeat split; discriminate|].
  destruct (negb _); [unfold raise; intros [= <- <-]; repeat split; discriminate|].
  unfold bind, lift, np_ones, np_linspace, set_knot_locs, ret.
  destruct (order self - 1 <? 0); [intros [= <- <-]; repeat split; discriminate|].
  destruct (_ <? 0); [intros [= <- <-]; repeat split; discriminate|].
  discriminate.
Qed.

(** X7: [BSplineBasis.evaluate] and the attribute [knot_locs]: a call that
    returns leaves the attribute unset, whatever it held; a call that fails
    after the knots were generated leaves the sorted knots in it; a call that
    fails while generating them leaves it as it was. *)
Theorem BSplineBasis_evaluate_knot_locs (self : Spline FL) xs outer_ok der s :
  snd (BSplineBasis_evaluate self xs outer_ok der s)
  = match fst (BSplineBasis_evaluate self xs outer_ok der s) with
    | Ok _ => None
    | Raise _ =>
        match fst (_generate_knots self xs (fofZ 0) (fofZ 1) false s) with
        | Ok knots => Some (np_sort knots)
        | Raise _ => s
        end
    end.
Proof.
  rewrite BSplineBasis_evaluate_run.
  destruct (_generate_knots self xs (fofZ 0) (fofZ 1) false s) as [[k|e] s'] eqn:E.
  - apply generate_knots_inv in E as (_ & _ & _ & _ & ->). cbn [fst].
    destruct (evaluate_on_knots _ _ _ _ _); reflexivity.
  - apply generate_knots_failure_state in E as (-> & _). reflexivity.
Qed.

End KnotLocs.

(** * Sums of B-spline bases *)

Section Evaluable.
Context {FL : Float64}.

Lemma evaluable_returns (b : Basis FL) :
  evaluable b ->
  forall x N, length x = n_input_samples b -> same_length N x ->
  streams_in_support b x = true ->
  exists m, _gen_model_matrix b x = Ok (PyArray m).
Proof.
  induction 1 as [n o b Hb Hle | A B HA IHA HB IHB];
    intros x N Hlen Hs Hsup.
  - apply BSplineBasis_inv in Hb as (s & -> & Hinit).
    apply SplineBasis_init_inv in Hinit
      as (Ho & [[_ Hm]|[He _]] & Hc & Hn & _ & Hord & Hk & _); [|discriminate].
    cbn in Hlen. rewrite Hk in Hlen. destruct x as [|x0 [|]]; try discriminate.
    cbn [streams_in_support] in Hsup.
    cbn [_gen_model_matrix]. unfold Spline_gen_model_matrix.
    rewrite py_index_head. cbn [rbind]. rewrite Hm, Hc.
    destruct (@BSplineBasis_evaluate_returns _ s x0 false 0 (knot_locs s))
      as (m & Hm' & _); [lia|lia|lia|exact Hsup|].
    rewrite Hm'. cbn. eauto.
  - cbn [addBasis n_input_samples] in Hlen.
    unfold addBasis in Hsup. cbn [streams_in_support] in Hsup.
    apply andb_true_iff in Hsup as [HsA HsB].
    destruct (IHA (firstn (n_input_samples A) x) N) as (ma & Hma);
      [rewrite length_firstn; lia|now apply same_length_firstn|exact HsA|].
    destruct (IHB (skipn (n_input_samples A) x) N) as (mb & Hmb);
      [rewrite length_skipn; lia|now apply same_length_skipn|exact HsB|].
    destruct (constructed_counts (evaluable_constructed HA)) as (HcA & _).
    destruct (constructed_counts (evaluable_constructed HB)) as (HcB & _).
    destruct (@gen_model_matrix_shape _ A _ N ma HcA
                (same_length_firstn _ Hs) Hma) as (_ & HsA' & _).
    destruct (@gen_model_matrix_shape _ B _ N mb HcB
                (same_length_skipn _ Hs) Hmb) as (_ & HsB' & _).
    unfold shape in HsA', HsB'. injection HsA' as _ HnA. injection HsB' as _ HnB.
    unfold addBasis. rewrite (gen_model_matrix_Add _ _ _ A B x Hma Hmb).
    unfold np_vstack. rewrite HnA, HnB, Nat.eqb_refl. cbn. eauto.
Qed.

(** X9: any sum of B-spline bases in 'evaluate' mode with
    [order <= n_basis_funcs], called on one stream per spline, all of [N]
    samples and each in the support of its spline, returns a matrix of
    [n_basis_funcs] rows and [N] columns when that fits the ceiling. *)
Theorem evaluable_model_matrix (b : Basis FL) x N :
  evaluable b ->
  length x = n_input_samples b -> same_length N x -> within_limit b N ->
  streams_in_support b x = true ->
  exists m,
    gen_model_matrix b x = Ok (PyArray m) /\
    shape m = (Z.to_nat (n_basis_funcs b), N) /\ rectangular m.
Proof.
  intros Hb Hlen Hs Hw Hsup.
  destruct (constructed_counts (evaluable_constructed Hb)) as (Hc & Hk & _).
  assert (Hne : x <> []).
  { intros ->. cbn in Hlen. pose proof (n_leaves_pos b). lia. }
  destruct (@evaluable_returns b Hb x N Hlen Hs Hsup) as (m & Hm).
  exists m. split.
  - now rewrite (@gen_model_matrix_checked _ b x N Hne Hs Hw Hlen).
  - now apply (@gen_model_matrix_shape _ b x N m Hc Hs Hm).
Qed.

End Evaluable.

(** * The samples of a cyclic evaluation *)

Section CyclicSamples.
Context {FL : Float64}.

Lemma BSplineBasis_evaluate_unset (self : Spline FL) xs outer_ok der s m s' :
  BSplineBasis_evaluate self xs outer_ok der s = (Ok m, s') -> s' = None.
Proof.
  rewrite BSplineBasis_evaluate_run.
  destruct (_generate_knots _ _ _ _ _ _) as [[k|e] [k'|]]; try discriminate.
  destruct (evaluate_on_knots _ _ _ _ _); [|discriminate]. now intros [= _ <-].
Qed.

(** What a returning cyclic evaluation leaves: the threshold it took from the
    knots, the two shifts applied to the samples above it, and no knots. *)
Lemma Cyclic_BSplineBasis_evaluate_buffer (self : Spline FL) xs der s m buf s' :
  Cyclic_BSplineBasis_evaluate self xs der s = (Ok (m, buf), s') ->
  let knots := np_unique (knot_vector self xs (fofZ 0) (fofZ 1) true) in
  exists xc knots_max orig_first,
    py_index (np_sort knots) (len knots - 2 * order self + 1) = Ok xc /\
    buf = update_masked (map (fun x => fgt x xc) xs)
            (fun x => fsub (fadd x knots_max) orig_first)
            (update_masked (map (fun x => fgt x xc) xs)
               (fun x => fadd (fsub x knots_max) orig_first) xs) /\
    s' = None.
Proof.
  unfold Cyclic_BSplineBasis_evaluate. cbv zeta.
  unfold bind at 1.
  destruct (_generate_knots _ _ _ _ _ _) as [[kn|e] s1] eqn:Eg; [|discriminate].
  apply generate_knots_inv in Eg as (_ & _ & _ & -> & ->).
  unfold bind at 1. unfold get_knot_locs at 1.
  unfold bind at 1. unfold set_knot_locs at 1.
  unfold bind at 1. unfold get_knot_locs at 1.
  unfold bind at 1. unfold lift at 1.
  destruct (py_index (np_sort (np_unique _)) _) as [xc|] eqn:Exc; [|discriminate].
  unfold bind at 1. unfold lift at 1.
  destruct (py_index (np_unique _) 0) as [kf|]; [|discriminate].
  unfold bind at 1. unfold lift at 1.
  destruct (py_index (np_unique _) (-1)) as [kl'|]; [|discriminate].
  unfold bind at 1. unfold set_knot_locs at 1.
  unfold bind at 1.
  match goal with |- context [BSplineBasis_evaluate self xs true der ?s0] =>
    destruct (BSplineBasis_evaluate self xs true der s0) as [[m0|e] s2] eqn:E0;
    [|discriminate] end.
  apply BSplineBasis_evaluate_unset in E0 as ->.
  unfold bind at 1. unfold lift at 1.
  destruct (np_max _) as [kmax|]; [|discriminate].
  unfold bind at 1. unfold lift at 1.
  destruct (py_index (np_sort (np_unique _)) 0) as [ko|]; [|discriminate].
  unfold bind at 1.
  destruct (negb (count_true _ =? 0)).
  - unfold bind at 1.
    match goal with |- context [BSplineBasis_evaluate self ?a true der ?s0] =>
      destruct (BSplineBasis_evaluate self a true der s0) as [[x2|e] s3] eqn:E2;
      [|discriminate] end.
    apply BSplineBasis_evaluate_unset in E2 as ->.
    unfold lift at 1.
    destruct (add_masked_columns m0 _ x2) as [m1|]; [|discriminate].
    unfold ret. intros [= <- <- <-]. exists xc, kmax, ko. auto.
  - unfold ret. intros [= <- <- <-]. exists xc, kmax, ko. auto.
Qed.

Lemma update_masked_cons m ind (f : F -> F) x a :
  update_masked (m :: ind) f (x :: a)
  = (if m then f x else x) :: update_masked ind f a.
Proof. unfold update_masked. destruct m; reflexivity. Qed.

Lemma update_masked_inverse ind (f g : F -> F) a :
  (forall x, g (f x) = x) ->
  update_masked ind g (update_masked ind f a) = a.
Proof.
  intros Hgf. revert a. induction ind as [|m ind IH]; intros [|x a]; try reflexivity.
  rewrite !update_masked_cons, IH. destruct m; [now rewrite Hgf|reflexivity].
Qed.

Lemma nth_error_update_masked_false ind (f : F -> F) a n :
  nth_error ind n = Some false ->
  nth_error (update_masked ind f a) n = nth_error a n.
Proof. apply nth_error_scatter_false. Qed.

(** X10: a cyclic evaluation that returns leaves the object without knots and the
    caller's array with as many samples as before; a sample that is not
    above the threshold knot, [knots[nk - 2 * order + 1]] of the distinct
    generated knots, is the same after the call. *)
Theorem Cyclic_evaluate_keeps_samples (self : Spline FL) xs der s m buf s' :
  Cyclic_BSplineBasis_evaluate self xs der s = (Ok (m, buf), s') ->
  s' = None /\ length buf = length xs /\
  exists xc,
    (let knots := np_unique (knot_vector self xs (fofZ 0) (fofZ 1) true) in
     py_index (np_sort knots) (len knots - 2 * order self + 1)) = Ok xc /\
    forall n x, nth_error xs n = Some x -> fgt x xc = false ->
                nth_error buf n = Some x.
Proof.
  intros H. apply Cyclic_BSplineBasis_evaluate_buffer in H
    as (xc & kmax & o & Hxc & -> & ->).
  split; [reflexivity|]. split; [now rewrite !length_update_masked|].
  exists xc. split; [exact Hxc|]. intros n x Hn Hx.
  assert (Hind : nth_error (map (fun x => fgt x xc) xs) n = Some false).
  { rewrite nth_error_map, Hn. cbn. now rewrite Hx. }
  now rewrite !nth_error_update_masked_false.
Qed.

(** X11: in an arithmetic where subtracting and adding back the two shifts is
    exact, a cyclic evaluation that returns leaves the caller's array as it
    was. *)
Theorem Cyclic_evaluate_restores_samples (self : Spline FL) xs der s m buf s' :
  (forall x a b : F, fsub (fadd (fadd (fsub x a) b) a) b = x) ->
  Cyclic_BSplineBasis_evaluate self xs der s = (Ok (m, buf), s') ->
  buf = xs.
Proof.
  intros Hexact H. apply Cyclic_BSplineBasis_evaluate_buffer in H
    as (xc & kmax & o & _ & -> & _).
  apply update_masked_inverse. intros x. apply Hexact.
Qed.

End CyclicSamples.

(** * Cyclic evaluation on equal knots *)

Section EqualKnots.
Context {FL : Float64}.

Lemma in_sort_insert (x y : F) l : In y (sort_insert x l) -> y = x \/ In y l.
Proof.
  induction l as [|z l IH]; cbn [sort_insert].
  - intros [<-|[]]. now left.
  - destruct (np_lt z x).
    + intros [<-|H]; [right; now left|]. destruct (IH H); [now left|right; now right].
    + intros [<-|H]; [now left|now right].
Qed.

Lemma in_np_sort (l : list F) y : In y (np_sort l) -> In y l.
Proof.
  induction l as [|x l IH]; cbn [np_sort fold_right]; [auto|].
  intros H. apply in_sort_insert in H as [->|H]; [now left|right; now apply IH].
Qed.

Lemma dedup_all_equal (x : F) l :
  (forall y, In y l -> feq x y = true) -> dedup x l = [x].
Proof.
  induction l as [|y l IH]; intros H; cbn [dedup]; [reflexivity|].
  rewrite (H y (or_introl eq_refl)). cbn [orb]. apply IH.
  intros z Hz. apply H. now right.
Qed.

Lemma np_unique_all_equal (l : list F) :
  l <> [] -> all_equal l = true -> exists k, np_unique l = [k].
Proof.
  intros Hne Hall. unfold np_unique.
  destruct (np_sort l) as [|x l'] eqn:E.
  - apply (f_equal (@length _)) in E. rewrite np_sort_length in E.
    destruct l; [congruence|discriminate].
  - exists x. apply dedup_all_equal. intros y Hy.
    unfold all_equal in Hall. rewrite forallb_forall in Hall.
    assert (Hx : In x l) by (apply in_np_sort; rewrite E; now left).
    assert (Hy' : In y l) by (apply in_np_sort; rewrite E; now right).
    specialize (Hall x Hx). rewrite forallb_forall in Hall. now apply Hall.
Qed.

(** X12: when the percentile bounds 0.0 and 1.0 pass the assertions and the
    knots generated from the samples are all equal, as they are for a stream
    of one repeated value, [Cyclic_BSplineBasis.evaluate] raises
    [IndexError]: a single distinct knot is left and the threshold
    [knots[nk - 2 * order + 1]] does not exist.  The distinct knots stay in
    [knot_locs]. *)
Theorem Cyclic_evaluate_equal_knots (self : Spline FL) xs der s :
  2 <= order self -> 1 <= s_n_basis_funcs self ->
  percentiles_ok (fofZ 0) (fofZ 1) = true ->
  all_equal (knot_vector self xs (fofZ 0) (fofZ 1) true) = true ->
  Cyclic_BSplineBasis_evaluate self xs der s
  = (Raise IndexError, Some (np_unique (knot_vector self xs (fofZ 0) (fofZ 1) true))).
Proof.
  intros Ho Hn Hperc Hall.
  assert (Hni : 0 <= num_interior self true) by (unfold num_interior; lia).
  pose proof (@knot_vector_length FL self xs (fofZ 0) (fofZ 1) true ltac:(lia) Hni) as Hlen.
  destruct (@np_unique_all_equal (knot_vector self xs (fofZ 0) (fofZ 1) true))
    as (k & Hk); [|exact Hall|].
  { intros E. rewrite E in Hlen. unfold len in Hlen. cbn [length] in Hlen. lia. }
  unfold Cyclic_BSplineBasis_evaluate. cbv zeta.
  unfold bind at 1.
  rewrite generate_knots_ok by (try assumption; lia).
  unfold bind at 1. unfold get_knot_locs at 1.
  unfold bind at 1. unfold set_knot_locs at 1.
  unfold bind at 1. unfold get_knot_locs at 1.
  unfold bind at 1. unfold lift at 1.
  rewrite Hk. change (np_sort [k]) with [k]. change (len [k]) with 1.
  unfold py_index, py_pos. change (len [k]) with 1.
  destruct (1 - 2 * order self + 1 <? 0) eqn:E1; [|lia].
  destruct ((1 - 2 * order self + 1 + 1 <? 0) || (1 <=? 1 - 2 * order self + 1 + 1)) eqn:E2.
  - reflexivity.
  - apply orb_false_iff in E2 as [E2 _]. lia.
Qed.

End EqualKnots.

(** * The directory shared by fetched files *)

Module FetchFacts.
Import Fetch.

Lemma contains_In d l : contains d l = true <-> In d l.
Proof.
  unfold contains. rewrite existsb_exists. split.
  - intros (q & Hq & H). destruct (Path_eq_dec d q); [now subst|discriminate].
  - intros H. exists d. split; [exact H|]. destruct (Path_eq_dec d d); congruence.
Qed.

Lemma parents_spec d p :
  In d (parents p) <->
  anchor d = anchor p /\
  exists k, (k < length (names p))%nat /\ names d = firstn k (names p).
Proof.
  unfold parents. rewrite in_map_iff. split.
  - intros (k & <- & Hk). apply in_rev, in_seq in Hk. cbn. split; [reflexivity|].
    exists k. split; [lia|reflexivity].
  - intros (Ha & k & Hk & Hn). exists k. split.
    + destruct d as [a n]. cbn in *. now subst.
    + apply in_rev. rewrite rev_involutive. apply in_seq. lia.
Qed.

Lemma parents_shorter d p :
  In d (parents p) -> (length (names d) < length (names p))%nat.
Proof.
  intros H. apply parents_spec in H as (_ & k & Hk & ->).
  rewrite length_firstn. lia.
Qed.

Lemma parents_trans d e p : In d (parents e) -> In e (parents p) -> In d (parents p).
Proof.
  intros H1 H2. apply parents_spec in H1 as (Ha1 & k1 & Hk1 & Hn1).
  apply parents_spec in H2 as (Ha2 & k2 & Hk2 & Hn2).
  apply parents_spec. split; [congruence|].
  rewrite Hn2 in Hn1, Hk1. rewrite length_firstn in Hk1.
  rewrite firstn_firstn in Hn1. exists (Nat.min k1 k2). split; [lia|exact Hn1].
Qed.

(** Two parents of one path are equal or one is a parent of the other. *)
Lemma parents_chain d e p :
  In d (parents p) -> In e (parents p) ->
  (length (names e) <= length (names d))%nat -> e = d \/ In e (parents d).
Proof.
  intros H1 H2 Hle. apply parents_spec in H1 as (Ha1 & k1 & Hk1 & Hn1).
  apply parents_spec in H2 as (Ha2 & k2 & Hk2 & Hn2).
  assert (Hl1 : length (names d) = k1) by (rewrite Hn1, length_firstn; lia).
  assert (Hl2 : length (names e) = k2) by (rewrite Hn2, length_firstn; lia).
  destruct (Nat.eq_dec k2 k1) as [->|Hne].
  - left. destruct d, e. cbn in *. congruence.
  - right. apply parents_spec. split; [congruence|].
    exists k2. split; [lia|]. rewrite Hn2, Hn1, firstn_firstn.
    f_equal. lia.
Qed.

(** [find] on the parents of a path returns the longest parent that passes. *)
Lemma find_parents_longest (f : Path -> bool) p d :
  find f (parents p) = Some d ->
  forall e, In e (parents p) -> f e = true ->
    (length (names e) <= length (names d))%nat.
Proof.
  unfold parents. generalize (length (names p)) as n.
  induction n as [|n IH]; [discriminate|].
  rewrite seq_S, rev_app_distr. cbn [rev app map find Nat.add].
  destruct (f _) eqn:E.
  - intros [= <-] e [<- | He] Hf; [lia|].
    apply in_map_iff in He as (k & <- & Hk). apply in_rev, in_seq in Hk.
    cbn. rewrite !length_firstn. lia.
  - intros Hfind e [<- | He] Hf; [congruence|]. now apply IH.
Qed.

Lemma shared_test paths d :
  forallb (fun p => contains d (parents p)) paths = true
  <-> forall p, In p paths -> In d (parents p).
Proof.
  rewrite forallb_forall. split; intros H p Hp; apply contains_In, H, Hp.
Qed.

Lemma find_shared_directory_sound paths d :
  _find_shared_directory paths = inr d ->
  paths <> [] /\ (forall p, In p paths -> In d (parents p)) /\
  forall e, (forall p, In p paths -> In e (parents p)) -> e = d \/ In e (parents d).
Proof.
  unfold _find_shared_directory. destruct paths as [|p0 rest]; [discriminate|].
  destruct (Nat.eqb _ 0); [discriminate|].
  destruct (find _ _) as [d0|] eqn:Hfind; [|discriminate].
  intros [= <-]. split; [discriminate|].
  pose proof (find_some _ _ Hfind) as [Hin Hf]. cbv beta in Hf.
  pose proof (proj1 (shared_test _ _) Hf) as Hsh. split; [exact Hsh|].
  intros e He. apply (@parents_chain d0 e p0); [exact Hin|apply He; now left|].
  apply (find_parents_longest _ _ Hfind); [apply He; now left|].
  now apply shared_test.
Qed.

Lemma find_shared_directory_complete paths d :
  paths <> [] -> (forall p, In p paths -> In d (parents p)) ->
  exists d0, _find_shared_directory paths = inr d0.
Proof.
  intros Hne Hd. unfold _find_shared_directory.
  destruct paths as [|p0 rest]; [congruence|].
  assert (H0 : In d (parents p0)) by (apply Hd; now left).
  destruct (parents p0) as [|q l] eqn:E; [contradiction|]. cbn [length Nat.eqb].
  destruct (find _ _) as [d0|] eqn:Hfind; [now exists d0|].
  apply find_none with (x := d) in Hfind; [|exact H0].
  apply shared_test in Hd. cbv beta in Hfind. congruence.
Qed.

Lemma parents_length p : length (parents p) = length (names p).
Proof. unfold parents. now rewrite length_map, length_rev, length_seq. Qed.

Lemma parents_irrefl d : ~ In d (parents d).
Proof. intros H. apply parents_shorter in H. lia. Qed.

Lemma find_shared_directory_unique paths d :
  paths <> [] -> (forall p, In p paths -> In d (parents p)) ->
  (forall e, (forall p, In p paths -> In e (parents p)) -> e = d \/ In e (parents d)) ->
  _find_shared_directory paths = inr d.
Proof.
  intros Hne Hd Hmax.
  destruct (@find_shared_directory_complete paths d Hne Hd) as (d0 & H0).
  rewrite H0. f_equal.
  apply find_shared_directory_sound in H0 as (_ & Hd0 & Hmax0).
  destruct (Hmax0 d Hd) as [->|H1]; [reflexivity|].
  destruct (Hmax d0 Hd0) as [->|H2]; [reflexivity|].
  apply parents_shorter in H1, H2. lia.
Qed.

(** X13: the directory returned is the deepest one that is a parent of every
    path: [_find_shared_directory paths] returns [d] exactly when [paths] is
    not empty, [d] is among the parents of each path, and every other
    directory with that property is among the parents of [d]. *)
Theorem find_shared_directory_deepest paths d :
  _find_shared_directory paths = inr d <->
  paths <> [] /\ (forall p, In p paths -> In d (parents p)) /\
  forall e, (forall p, In p paths -> In e (parents p)) -> e = d \/ In e (parents d).
Proof.
  split.
  - apply find_shared_directory_sound.
  - intros (Hne & Hd & Hmax). now apply find_shared_directory_unique.
Qed.

(** X14: the last error is raised exactly when the first path has a parent and
    some path has another anchor than the first or has no name after its
    anchor: paths with one anchor and at least one name each always share a
    directory. *)
Theorem find_shared_directory_no_shared paths :
  _find_shared_directory paths = inl ValueError_no_shared_directory <->
  exists path0 rest,
    paths = path0 :: rest /\ names path0 <> [] /\
    exists p, In p paths /\ (anchor p <> anchor path0 \/ names p = []).
Proof.
  split.
  - unfold _find_shared_directory. destruct paths as [|p0 rest]; [discriminate|].
    rewrite parents_length. destruct (names p0) as [|n0 ns] eqn:En; [discriminate|].
    cbn [length Nat.eqb]. destruct (find _ _) eqn:Hfind; [discriminate|]. intros _.
    exists p0, rest. split; [reflexivity|]. split; [rewrite En; discriminate|].
    set (r := {| anchor := anchor p0; names := [] |}).
    apply find_none with (x := r) in Hfind.
    2:{ apply parents_spec. split; [reflexivity|]. exists 0%nat. rewrite En.
        split; [cbn; lia|reflexivity]. }
    cbv beta in Hfind.
    assert (Hex : exists p, In p (p0 :: rest) /\ contains r (parents p) = false).
    { clear -Hfind. induction (p0 :: rest) as [|q l IH]; [discriminate|].
      cbn [forallb] in Hfind. apply andb_false_iff in Hfind as [H|H].
      - exists q. split; [now left|exact H].
      - destruct (IH H) as (p & Hp & Hc). exists p. split; [now right|exact Hc]. }
    destruct Hex as (p & Hp & Hc). exists p. split; [exact Hp|].
    destruct (string_dec (anchor p) (anchor p0)) as [Ha|Ha]; [|now left].
    right. destruct (names p) as [|n ns'] eqn:Ep; [reflexivity|]. exfalso.
    assert (H : In r (parents p)).
    { apply parents_spec. split; [now rewrite Ha|]. exists 0%nat. rewrite Ep.
      split; [cbn; lia|reflexivity]. }
    apply contains_In in H. congruence.
  - intros (p0 & rest & -> & Hn & p & Hp & Hbad).
    destruct (_find_shared_directory (p0 :: rest)) as [e|d] eqn:E.
    + unfold _find_shared_directory in E. rewrite parents_length in E.
      destruct (names p0) as [|n0 ns]; [congruence|]. cbn [length Nat.eqb] in E.
      destruct (find _ _); [discriminate|]. now symmetry.
    + exfalso. apply find_shared_directory_sound in E as (_ & Hd & _).
      pose proof (Hd p0 (or_introl eq_refl)) as H0. pose proof (Hd p Hp) as H1.
      apply parents_spec in H0 as (Ha0 & _).
      apply parents_spec in H1 as (Ha1 & k & Hk & _).
      destruct Hbad as [Hbad|Hbad]; [congruence|]. rewrite Hbad in Hk. cbn in Hk. lia.
Qed.

(** X15: the directory returned is never one of the paths given, also when one of
    them is a directory that holds the others; for a single path it is the
    parent of that path. *)
Theorem find_shared_directory_not_given paths d :
  _find_shared_directory paths = inr d ->
  ~ In d paths /\ forall p, paths = [p] -> d = parent p.
Proof.
  intros H. apply find_shared_directory_sound in H as (_ & Hd & Hmax). split.
  - intros Hin. exact (@parents_irrefl d (Hd d Hin)).
  - intros p ->. pose proof (Hd p (or_introl eq_refl)) as Hp.
    assert (Hpar : In (parent p) (parents p)).
    { apply parents_spec. split; [reflexivity|].
      apply parents_spec in Hp as (_ & k & Hk & _).
      exists (Nat.pred (length (names p))). split; [lia|].
      cbn. apply removelast_firstn_len. }
    destruct (Hmax (parent p)) as [<-|Hlt]; [|reflexivity|].
    + intros q [<-|[]]. exact Hpar.
    + exfalso. apply parents_shorter in Hlt.
      apply parents_spec in Hp as (_ & k & Hk & Hn).
      rewrite Hn in Hlt. unfold parent in Hlt. cbn in Hlt.
      rewrite removelast_firstn_len, !length_firstn in Hlt. lia.
Qed.

(** X16: the directory returned does not depend on the order of the paths. *)
Theorem find_shared_directory_permutation paths paths' d :
  Permutation paths paths' ->
  _find_shared_directory paths = inr d ->
  _find_shared_directory paths' = inr d.
Proof.
  intros Hperm H. apply find_shared_directory_sound in H as (Hne & Hd & Hmax).
  apply find_shared_directory_unique.
  - intros ->. apply Permutation_sym, Permutation_nil in Hperm. congruence.
  - intros p Hp. apply Hd. apply Permutation_in with (l := paths'); [|exact Hp].
    now apply Permutation_sym.
  - intros e He. apply Hmax. intros p Hp. apply He.
    now apply Permutation_in with (l := paths).
Qed.

End FetchFacts.

(** * Instances on exact integers and on concrete paths *)

Module Instances.
Import Exact ExactLaws Fetch FetchFacts.

Definition three_sum : Basis integers :=
  addBasis (addBasis left_basis right_basis) right_basis.

(** The same sum on float64, with three streams of doubles. *)
Definition float_streams : list (list float) :=
  [[Binary64.d0_1; Binary64.d0_25; Binary64.d0_3];
   [Binary64.of_Z 5; Binary64.of_Z 6; Binary64.of_Z 11];
   [Binary64.d0_3; Binary64.d0_1; Binary64.d0_25]].
Definition float_sum : Basis Binary64.binary64 :=
  addBasis (addBasis (Leaf (Binary64.bspline 3 2)) (Leaf (Binary64.bspline 2 1)))
           (Leaf (Binary64.bspline 2 1)).

Lemma evaluable_model_matrix_witness :
  exists m,
    gen_model_matrix float_sum float_streams = Ok (PyArray m) /\
    shape m = (Z.to_nat (n_basis_funcs float_sum), 3%nat) /\ rectangular m.
Proof.
  apply (@evaluable_model_matrix Binary64.binary64 float_sum float_streams 3).
  - apply evaluable_add; [apply evaluable_add|].
    + apply (@evaluable_BSplineBasis Binary64.binary64 3 2 _ eq_refl). lia.
    + apply (@evaluable_BSplineBasis Binary64.binary64 2 1 _ eq_refl). lia.
    + apply (@evaluable_BSplineBasis Binary64.binary64 2 1 _ eq_refl). lia.
  - reflexivity.
  - repeat constructor.
  - apply Qle_bool_iff. reflexivity.
  - vm_compute. reflexivity.
Defined.

Definition product : Basis integers := mulBasis left_basis right_basis.

Lemma constructed_memory_ceiling_witness :
  n_input_samples product = n_leaves product /\ GB_limit product = 16%Q /\
  forall x N, x <> [] -> same_length N x ->
    (gen_model_matrix product x = Raise MemoryError_model_matrix_size
     <-> 2000000000 < Z.of_nat N * n_basis_funcs product).
Proof.
  apply (@constructed_memory_ceiling integers product).
  apply constructed_mul.
  - exact (@constructed_BSplineBasis integers 3 2 "evaluate" left_basis eq_refl).
  - exact (@constructed_BSplineBasis integers 2 1 "evaluate" right_basis eq_refl).
Defined.

Lemma BSplineBasis_order_checked_late_witness :
  gen_model_matrix (Leaf (spline 2 3)) [[0; 1; 2]]
  = Raise ValueError_order_larger_than_n_basis.
Proof.
  apply (@BSplineBasis_order_checked_late integers 2 3 [0; 1; 2] (Leaf (spline 2 3)) eq_refl).
  - lia.
  - apply Qle_bool_iff. reflexivity.
Defined.

(** [BSplineBasis(2, order=3, eval_type='convolve')] as constructed. *)
Definition convolve_basis : Basis integers :=
  Leaf {| s_class := BSpline; s_n_basis_funcs := 2; s_GB_limit := 16%Q;
          order := 3; s_n_input_samples := 1; s_mode := mode_convolve;
          knot_locs := None |}.

Lemma convolve_returns_None_witness :
  gen_model_matrix convolve_basis [[0; 1; 2]] = Ok PyNone.
Proof.
  apply (@convolve_returns_None integers 2 3 [0; 1; 2] convolve_basis (or_introl eq_refl)).
  apply Qle_bool_iff. reflexivity.
Defined.


(** [Cyclic_BSplineBasis(4, order=2)] as constructed, six samples and the
    matrix that the evaluation returns on them. *)
Definition cyclic_basis : Spline integers :=
  {| s_class := Cyclic_BSpline; s_n_basis_funcs := 4; s_GB_limit := 16%Q;
     order := 2; s_n_input_samples := 1; s_mode := mode_evaluate;
     knot_locs := None |}.
Definition six_samples : list Z := [0; 7; 20; 30; 14; 25].
Definition cyclic_matrix : matrix integers :=
  @Build_matrix integers 6
    [[0; 0; 0; 0; 0; 0]; [1; 1; 1; 0; 0; 0]; [0; 0; 0; 0; 1; 1]; [0; 0; 1; 0; 0; 1]].

Lemma Cyclic_evaluate_keeps_samples_witness :
  @None (list Z) = None /\ length six_samples = length six_samples /\
  exists xc,
    (let knots := np_unique (knot_vector cyclic_basis six_samples (fofZ 0) (fofZ 1) true) in
     py_index (np_sort knots) (len knots - 2 * order cyclic_basis + 1)) = Ok xc /\
    forall n (x : @F integers), nth_error six_samples n = Some x -> fgt x xc = false ->
                nth_error six_samples n = Some x.
Proof.
  apply (@Cyclic_evaluate_keeps_samples integers cyclic_basis six_samples 0 None
           cyclic_matrix six_samples None).
  vm_compute. reflexivity.
Defined.

Lemma Cyclic_evaluate_restores_samples_witness : six_samples = six_samples.
Proof.
  apply (@Cyclic_evaluate_restores_samples integers cyclic_basis six_samples 0 None
           cyclic_matrix six_samples None).
  - intros x a b. cbn. lia.
  - vm_compute. reflexivity.
Defined.

(** [Cyclic_BSplineBasis(4, order=2)] on float64 and a stream of one
    repeated double. *)
Definition float_cyclic : Spline Binary64.binary64 :=
  Binary64.cyclic_4_2 Binary64.step_spline.
Definition fives : list float := [Binary64.of_Z 5; Binary64.of_Z 5; Binary64.of_Z 5].

Lemma Cyclic_evaluate_equal_knots_witness :
  Cyclic_BSplineBasis_evaluate float_cyclic fives 0 None
  = (Raise IndexError,
     Some (np_unique (knot_vector float_cyclic fives (fofZ 0) (fofZ 1) true))).
Proof.
  apply (@Cyclic_evaluate_equal_knots Binary64.binary64 float_cyclic fives 0 None).
  - vm_compute. discriminate.
  - vm_compute. discriminate.
  - vm_compute. reflexivity.
  - vm_compute. reflexivity.
Defined.

(** An extracted directory, a file in it, and their parent. *)
Definition cache : Path := {| anchor := "/"; names := ["home"; "cache"]%string |}.
Definition extracted : Path :=
  {| anchor := "/"; names := ["home"; "cache"; "data.tar.gz.untar"]%string |}.
Definition member : Path :=
  {| anchor := "/"; names := ["home"; "cache"; "data.tar.gz.untar"; "a.nwb"]%string |}.

Lemma find_shared_directory_not_given_witness :
  ~ In cache [extracted; member] /\
  forall p, [extracted; member] = [p] -> cache = parent p.
Proof.
  apply (@find_shared_directory_not_given [extracted; member] cache).
  vm_compute. reflexivity.
Defined.

Lemma find_shared_directory_permutation_witness :
  _find_shared_directory [member; extracted] = inr cache.
Proof.
  apply (@find_shared_directory_permutation [extracted; member] [member; extracted] cache).
  - apply perm_swap.
  - vm_compute. reflexivity.
Defined.

End Instances.
